(** * Tattoo-Classifier: the photo and tattoo batch classifiers

    A shallow embedding of [local_app.py] (module [Photo]) and
    [tattoo_classifier.py] (module [Tattoo]), and the properties of the
    rate-limited, resumable batch loop that their specification states.

    Conventions.
    - Python [str] is [string]; a character is a code point below 256.
    - Python [int] is [Z]; time is a [Z] count of milliseconds, so that
      [60] seconds is [60000] and [time.sleep(1)] advances the clock by
      [1000].  The clock does not run backwards, and a sleep takes the time
      that was asked for.
    - The collaborators that the scripts only call (the inference service,
      the image decoder, the file system, [pandas.read_csv],
      [random.sample]) are inputs: what they answer, and how long they take,
      is part of the data that a run is given.  Opening the ledger and
      writing to it do not fail.
    - Exceptions are values of [result]; [print] appends to a console log of
      structured messages.
    - [numpy] floats are the binary64 floats of [PrimFloat]. *)

From Stdlib Require Import ZArith List Ascii String Bool Lia Sorted PrimFloat Uint63.
From Stdlib.Strings Require Import Byte.
From stdpp Require Import gmap strings list.

Local Open Scope string_scope.
Local Open Scope Z_scope.
Local Open Scope list_scope.

(** ** Python strings *)

Module PyStr.

(** [c.isspace()] for a code point below 256. *)
Definition isspace (c : ascii) : bool :=
  let n := nat_of_ascii c in
  ((9 <=? n)%nat && (n <=? 13)%nat) || ((28 <=? n)%nat && (n <=? 32)%nat)
  || (n =? 133)%nat || (n =? 160)%nat.

Fixpoint lstrip (s : string) : string :=
  match s with
  | String c s' => if isspace c then lstrip s' else s
  | EmptyString => EmptyString
  end.

(** [rstrip] keeps a character when something that is not white space
    follows it or when it is not white space itself. *)
Fixpoint rstrip (s : string) : string :=
  match s with
  | String c s' =>
      match rstrip s' with
      | EmptyString => if isspace c then EmptyString else String c EmptyString
      | r => String c r
      end
  | EmptyString => EmptyString
  end.

(** [s.strip()] *)
Definition strip (s : string) : string := rstrip (lstrip s).

(** [s.split(sep)] for a separator of one character: the pieces between the
    separators, never an empty list. *)
Fixpoint split (sep : ascii) (s : string) : list string :=
  match s with
  | EmptyString => [EmptyString]
  | String c s' =>
      if Ascii.eqb c sep then EmptyString :: split sep s'
      else match split sep s' with
           | l :: ls => String c l :: ls
           | [] => [String c EmptyString]
           end
  end.

(** [sep.join(l)] for a separator of one character. *)
Fixpoint join (sep : ascii) (l : list string) : string :=
  match l with
  | [] => EmptyString
  | [x] => x
  | x :: l' => x +:+ String sep (join sep l')
  end.

(** [s.startswith(p)] *)
Fixpoint startswith (p s : string) : bool :=
  match p, s with
  | EmptyString, _ => true
  | String a p', String b s' => Ascii.eqb a b && startswith p' s'
  | String _ _, EmptyString => false
  end.

(** [old in s] *)
Fixpoint contains (old s : string) : bool :=
  startswith old s
  || match s with
     | String _ s' => contains old s'
     | EmptyString => false
     end.

(** [s.replace(old, new)] for a non-empty [old]: every occurrence of [old],
    leftmost first and without overlap, becomes [new].  [skip] counts the
    characters of a match that are still to be dropped. *)
Fixpoint replace_from (skip : nat) (old new s : string) : string :=
  match s with
  | EmptyString => EmptyString
  | String c s' =>
      match skip with
      | S k => replace_from k old new s'
      | O =>
          if startswith old s
          then new +:+ replace_from (Nat.pred (String.length old)) old new s'
          else String c (replace_from O old new s')
      end
  end.

(** With an empty [old] Python puts [new] before every character and at the
    end. *)
Fixpoint intersperse (new s : string) : string :=
  match s with
  | EmptyString => new
  | String c s' => new +:+ String c (intersperse new s')
  end.

Definition replace (s old new : string) : string :=
  match old with
  | EmptyString => intersperse new s
  | String _ _ => replace_from O old new s
  end.

(** [s.lower()] on ASCII letters; the other characters, none of which is in
    an extension that the scripts look for, are left as they are. *)
Definition lower_char (c : ascii) : ascii :=
  let n := nat_of_ascii c in
  if ((65 <=? n)%nat && (n <=? 90)%nat) then ascii_of_nat (n + 32) else c.

Fixpoint lower (s : string) : string :=
  match s with
  | EmptyString => EmptyString
  | String c s' => String (lower_char c) (lower s')
  end.

Definition newline : ascii := "010"%char.

End PyStr.

(** ** MD5, as [hashlib.md5(data).hexdigest()] computes it (RFC 1321)

    Words are 32-bit values held in [Z]; every addition wraps at [2^32]. *)

Module MD5.

Definition mask32 : Z := 0xffffffff.

Definition add32 (a b : Z) : Z := Z.land (a + b) mask32.

Definition not32 (a : Z) : Z := Z.lxor a mask32.

Definition rotl32 (x c : Z) : Z :=
  Z.lor (Z.land (Z.shiftl x c) mask32) (Z.shiftr x (32 - c)).

(** Per-round shift amounts. *)
Definition shifts : list Z :=
  [ 7; 12; 17; 22; 7; 12; 17; 22; 7; 12; 17; 22; 7; 12; 17; 22;
    5; 9; 14; 20; 5; 9; 14; 20; 5; 9; 14; 20; 5; 9; 14; 20;
    4; 11; 16; 23; 4; 11; 16; 23; 4; 11; 16; 23; 4; 11; 16; 23;
    6; 10; 15; 21; 6; 10; 15; 21; 6; 10; 15; 21; 6; 10; 15; 21 ].

(** [floor(2^32 * abs(sin(i + 1)))] for [i] from 0 to 63. *)
Definition sines : list Z :=
  [
    0xd76aa478; 0xe8c7b756; 0x242070db; 0xc1bdceee;
    0xf57c0faf; 0x4787c62a; 0xa8304613; 0xfd469501;
    0x698098d8; 0x8b44f7af; 0xffff5bb1; 0x895cd7be;
    0x6b901122; 0xfd987193; 0xa679438e; 0x49b40821;
    0xf61e2562; 0xc040b340; 0x265e5a51; 0xe9b6c7aa;
    0xd62f105d; 0x02441453; 0xd8a1e681; 0xe7d3fbc8;
    0x21e1cde6; 0xc33707d6; 0xf4d50d87; 0x455a14ed;
    0xa9e3e905; 0xfcefa3f8; 0x676f02d9; 0x8d2a4c8a;
    0xfffa3942; 0x8771f681; 0x6d9d6122; 0xfde5380c;
    0xa4beea44; 0x4bdecfa9; 0xf6bb4b60; 0xbebfbc70;
    0x289b7ec6; 0xeaa127fa; 0xd4ef3085; 0x04881d05;
    0xd9d4d039; 0xe6db99e5; 0x1fa27cf8; 0xc4ac5665;
    0xf4292244; 0x432aff97; 0xab9423a7; 0xfc93a039;
    0x655b59c3; 0x8f0ccc92; 0xffeff47d; 0x85845dd1;
    0x6fa87e4f; 0xfe2ce6e0; 0xa3014314; 0x4e0811a1;
    0xf7537e82; 0xbd3af235; 0x2ad7d2bb; 0xeb86d391 ].

Definition byte_val (b : byte) : Z := Z.of_N (Byte.to_N b).

(** Little-endian 32-bit word of the first four bytes. *)
Definition word_of (bs : list Z) : Z :=
  match bs with
  | b0 :: b1 :: b2 :: b3 :: _ =>
      Z.lor b0 (Z.lor (Z.shiftl b1 8) (Z.lor (Z.shiftl b2 16) (Z.shiftl b3 24)))
  | _ => 0
  end.

Definition bytes_of_word (w : Z) : list Z :=
  [ Z.land w 255; Z.land (Z.shiftr w 8) 255;
    Z.land (Z.shiftr w 16) 255; Z.land (Z.shiftr w 24) 255 ].

(** The message followed by [0x80], zero bytes up to 56 modulo 64, and the
    bit length of the message as a little-endian 64-bit number. *)
Definition pad (msg : list Z) : list Z :=
  let len := Z.of_nat (length msg) in
  let zeros := Z.to_nat ((55 - len) mod 64) in
  let bits := Z.land (8 * len) 0xffffffffffffffff in
  msg ++ [128] ++ List.repeat 0 zeros
      ++ bytes_of_word (Z.land bits mask32) ++ bytes_of_word (Z.shiftr bits 32).

Fixpoint chunks (n size : nat) (bs : list Z) : list (list Z) :=
  match n with
  | O => []
  | S n' => take size bs :: chunks n' size (drop size bs)
  end.

Definition words_of_block (block : list Z) : list Z :=
  List.map word_of (chunks 16 4 block).

Definition round (m : list Z) (st : Z * Z * Z * Z) (i : nat) : Z * Z * Z * Z :=
  let '(a, b, c, d) := st in
  let '(f, g) :=
    if (i <? 16)%nat then (Z.lor (Z.land b c) (Z.land (not32 b) d), i)
    else if (i <? 32)%nat then
      (Z.lor (Z.land d b) (Z.land (not32 d) c), ((5 * i + 1) mod 16)%nat)
    else if (i <? 48)%nat then (Z.lxor b (Z.lxor c d), ((3 * i + 5) mod 16)%nat)
    else (Z.lxor c (Z.lor b (not32 d)), ((7 * i) mod 16)%nat) in
  let f' := add32 (add32 (add32 f a) (nth i sines 0)) (nth g m 0) in
  (d, add32 b (rotl32 f' (nth i shifts 0)), b, c).

Definition compress (st : Z * Z * Z * Z) (block : list Z) : Z * Z * Z * Z :=
  let '(a0, b0, c0, d0) := st in
  let '(a, b, c, d) := fold_left (round (words_of_block block)) (seq 0 64) st in
  (add32 a0 a, add32 b0 b, add32 c0 c, add32 d0 d).

Definition init : Z * Z * Z * Z := (0x67452301, 0xefcdab89, 0x98badcfe, 0x10325476).

(** The 16 bytes of the digest. *)
Definition digest (msg : list byte) : list Z :=
  let padded := pad (List.map byte_val msg) in
  let '(a, b, c, d) :=
    fold_left compress (chunks (length padded / 64) 64 padded) init in
  bytes_of_word a ++ bytes_of_word b ++ bytes_of_word c ++ bytes_of_word d.

Definition hex_digit (n : Z) : ascii :=
  if n <? 10 then ascii_of_nat (Z.to_nat (48 + n)) else ascii_of_nat (Z.to_nat (87 + n)).

Fixpoint hex_of_bytes (bs : list Z) : string :=
  match bs with
  | [] => EmptyString
  | b :: bs' => String (hex_digit (Z.shiftr b 4)) (String (hex_digit (Z.land b 15)) (hex_of_bytes bs'))
  end.

Definition hexdigest (msg : list byte) : string := hex_of_bytes (digest msg).

End MD5.

(** ** What both scripts share *)

(** A computation that may raise: [str(e)] of the exception, or the value. *)
Inductive result (A : Type) : Type :=
  | Raised (msg : string)
  | Returned (a : A).
Arguments Raised {A} msg.
Arguments Returned {A} a.

#[global] Instance result_ret : MRet result := fun A a => Returned a.

#[global] Instance result_bind : MBind result := fun A B k r =>
  match r with
  | Raised msg => Raised msg
  | Returned a => k a
  end.

(** [l[i]] on a Python list, with the [IndexError] it raises out of range. *)
Definition item {A : Type} (l : list A) (i : nat) : result A :=
  match l !! i with
  | Some a => Returned a
  | None => Raised "list index out of range"
  end.

(** One path that [folder.glob('**/*')] yields, with everything the outside
    world answers about it during a run. *)
Record entry : Type := {
  e_path : string;                (* str(image_path) *)
  e_suffix : string;              (* image_path.suffix *)
  e_bytes : result (list byte);   (* open(image_path, 'rb'): the content, or the error *)
  e_decode : result unit;         (* PIL opening, resizing and converting the file *)
  e_reply : result string;        (* generate_content, resolve and response.text *)
  e_lead_ms : N;                  (* time from the start of its turn to the limiter's look at the clock *)
  e_call_ms : N                   (* time the classification takes *)
}.

(** A table as [pandas.read_csv] returns it: a missing cell is [None]. *)
Record DataFrame : Type := {
  columns : list string;
  records : list (list (option string))
}.

Fixpoint index_of (name : string) (cols : list string) : option nat :=
  match cols with
  | [] => None
  | c :: cols' => if String.eqb c name then Some O else S <$> index_of name cols'
  end.

(** The [KeyError] for a column that is not there prints the quoted name. *)
Definition key_error (name : string) : string := "'" +:+ name +:+ "'".

Definition cell (i : nat) (row : list (option string)) : option string :=
  default None (row !! i).

(** [df[name].values] *)
Definition column (df : DataFrame) (name : string) : result (list (option string)) :=
  match index_of name (columns df) with
  | Some i => Returned (cell i <$> records df)
  | None => Raised (key_error name)
  end.

(** [[row[name] for _, row in df.iterrows()]]: no row, no lookup, no error. *)
Definition cells_by_row (df : DataFrame) (name : string) : result (list (option string)) :=
  match records df with
  | [] => Returned []
  | _ :: _ => column df name
  end.

(** The strings among the cells: a missing cell is [nan], which no [str]
    equals. *)
Definition strings_of (cells : list (option string)) : list string :=
  omap id cells.

(** [set(cells)], as far as strings are looked up in it. *)
Definition path_set_of (cells : list (option string)) : gset string :=
  list_to_set (strings_of cells).

(** What the scripts print. *)
Inductive message : Type :=
  | SettingUp
  | SetupSuccessful
  | FoundProcessed (n : nat)
  | Scanning
  | FoundNew (n : nat)
  | TakingSample (n : Z)
  | DailyLimitReached (limit : Z)
  | SkippingByHash (path : string)
  | SkippingByPath (path : string)
  | RateLimitWaiting (wait_ms : Z)
  | Processing (n : Z) (of_total : option nat) (path : string)
  | Results (path : string) (attributes : list string)
  | ProcessingComplete (total : Z)
  | ErrorImage (path msg : string)
  | ErrorProcessing (path msg : string)
  | ErrorHashing (path msg : string)
  | ErrorReadingCsv (msg : string)
  | ErrorOccurred (msg : string)
  | NoResultsFile
  | AnalysisSummary (total : nat) (top_categories : list (string * Z * float))
      (top_weddings : list (string * Z))
  | AnalysisSaved (path : string)
  | ErrorAnalyzing (msg : string).

(** [setup_gemini]: the key comes from the environment; an unset or empty
    one raises. *)
Definition setup_gemini (api_key : option string) : result unit :=
  match api_key with
  | None | Some EmptyString => Raised "Please set GOOGLE_API_KEY environment variable"
  | Some _ => Returned tt
  end.

(** [encode_image]: the image, or [None] after printing the error. *)
Definition encode_image (e : entry) : option unit * list message :=
  match e_decode e with
  | Returned img => (Some img, [])
  | Raised msg => (None, [ErrorImage (e_path e) msg])
  end.

Definition image_extensions : list string := [".jpg"; ".jpeg"; ".png"; ".gif"; ".webp"].

Definition is_image (e : entry) : bool :=
  bool_decide (PyStr.lower (e_suffix e) ∈ image_extensions).

(** *** The output file object

    [pending] holds the rows handed to [writer.writerow] since the last
    flush, [durable] those a flush has pushed out of the process.  Python may
    push more on its own when its buffer fills; [durable] is what is certain. *)
Record outfile (R : Type) : Type := {
  durable : list R;
  pending : list R
}.
Arguments durable {R} o.
Arguments pending {R} o.

Definition opened {R : Type} : outfile R := {| durable := []; pending := [] |}.

Definition writerow {R : Type} (r : R) (f : outfile R) : outfile R :=
  {| durable := durable f; pending := pending f ++ [r] |}.

Definition flush {R : Type} (f : outfile R) : outfile R :=
  {| durable := durable f ++ pending f; pending := [] |}.

Definition written {R : Type} (f : outfile R) : list R := durable f ++ pending f.

(** *** The per-minute limiter

    The block that both [process_folder]s run before every classification.
    [clock] is what [time.time()] returns; [calls] and [windows] are history
    kept for the proofs: when each classification started and for which
    image, and every value [minute_start] has had, latest first. *)
Record pacing : Type := {
  clock : Z;
  minute_start : Z;
  requests_this_minute : Z;
  calls : list (Z * string);
  windows : list Z
}.

Definition minute : Z := 60000.
Definition second : Z := 1000.

(** [minute_start = time.time()] when the loop is set up. *)
Definition start_pacing (t0 : Z) : pacing :=
  {| clock := t0; minute_start := t0; requests_this_minute := 0;
     calls := []; windows := [t0] |}.

(** Time passing. *)
Definition elapse (d : Z) (p : pacing) : pacing :=
  {| clock := clock p + d; minute_start := minute_start p;
     requests_this_minute := requests_this_minute p;
     calls := calls p; windows := windows p |}.

Definition new_window (p : pacing) : pacing :=
  {| clock := clock p; minute_start := clock p; requests_this_minute := 0;
     calls := calls p; windows := clock p :: windows p |}.

(** "Rate limiting per minute". *)
Definition throttle (p : pacing) : pacing * list message :=
  let current_time := clock p in
  let p1 := if minute <=? current_time - minute_start p then new_window p else p in
  if 14 <=? requests_this_minute p1 then
    let wait_time := minute - (current_time - minute_start p1) in
    (new_window (elapse wait_time p1), [RateLimitWaiting wait_time])
  else (p1, []).

(** A classification starting now. *)
Definition classify_now (path : string) (p : pacing) : pacing :=
  {| clock := clock p; minute_start := minute_start p;
     requests_this_minute := requests_this_minute p;
     calls := calls p ++ [(clock p, path)]; windows := windows p |}.

(** [requests_this_minute += 1] *)
Definition count_request (p : pacing) : pacing :=
  {| clock := clock p; minute_start := minute_start p;
     requests_this_minute := requests_this_minute p + 1;
     calls := calls p; windows := windows p |}.


(** ** [local_app.py]: the photo pipeline *)

Module Photo.

(** Category, wedding, people, location, description. *)
Definition attributes : Type := string * string * string * string * string.

Definition load_failed : attributes :=
  ("Error", "N/A", "Unknown", "Unknown", "Failed to load image").

Definition process_failed (msg : string) : attributes :=
  ("Error", "N/A", "Unknown", "Unknown", "Failed to process: " +:+ msg).

(** "Parse response" *)
Definition parse_response (text : string) : result attributes :=
  let lines := PyStr.split PyStr.newline (PyStr.strip text) in
  l0 ← item lines 0;
  let category := PyStr.strip (PyStr.replace l0 "Category: " "") in
  l1 ← item lines 1;
  let wedding := PyStr.strip (PyStr.replace l1 "Wedding: " "") in
  l2 ← item lines 2;
  let people := PyStr.strip (PyStr.replace l2 "People: " "") in
  l3 ← item lines 3;
  let location := PyStr.strip (PyStr.replace l3 "Location: " "") in
  l4 ← item lines 4;
  let description := PyStr.strip (PyStr.replace l4 "Description: " "") in
  mret (category, wedding, people, location, description).

Definition analyze_photo (e : entry) : attributes * list message :=
  match encode_image e with
  | (None, out) => (load_failed, out)
  | (Some image, out) =>
      match text ← e_reply e; parse_response text with
      | Returned a => (a, out)
      | Raised msg => (process_failed msg, out ++ [ErrorProcessing (e_path e) msg])
      end
  end.

(** "Use the first 8KB of the file for hashing" *)
Definition prefix_size : nat := Z.to_nat 8192.

Definition get_image_hash (e : entry) : string * list message :=
  match e_bytes e with
  | Returned content => (MD5.hexdigest (take prefix_size content), [])
  | Raised msg => (e_path e, [ErrorHashing (e_path e) msg])
  end.

Definition hash_dict_of (cells : list (option string)) : gmap string bool :=
  list_to_map ((fun h => (h, true)) <$> strings_of cells).

(** [ledger] is [None] when [os.path.exists(csv_path)] is false, and else
    what [pd.read_csv(csv_path)] does. *)
Definition get_processed_images (ledger : option (result DataFrame))
  : gmap string bool * gset string * list message :=
  match ledger with
  | None => (∅, ∅, [])
  | Some read_csv =>
      match df ← read_csv;
            hashes ← cells_by_row df "Image Hash";
            paths ← column df "Image Path";
            mret (hash_dict_of hashes, path_set_of paths) with
      | Returned (hash_dict, path_set) => (hash_dict, path_set, [])
      | Raised msg => (∅, ∅, [ErrorReadingCsv msg])
      end
  end.

Record row : Type := {
  row_path : string;
  row_hash : string;
  row_attributes : attributes;
  row_date : Z
}.

Inductive line : Type :=
  | Header
  | Row (r : row).

Record state : Type := {
  pace : pacing;
  total_processed : Z;
  daily_requests : Z;
  file : outfile line;
  console : list message
}.

Definition initial (t0 : Z) : state :=
  {| pace := start_pacing t0; total_processed := 0; daily_requests := 0;
     file := opened; console := [] |}.

Definition print (out : list message) (s : state) : state :=
  {| pace := pace s; total_processed := total_processed s;
     daily_requests := daily_requests s; file := file s;
     console := console s ++ out |}.

Definition with_pace (p : pacing) (s : state) : state :=
  {| pace := p; total_processed := total_processed s;
     daily_requests := daily_requests s; file := file s; console := console s |}.

Definition with_file (f : outfile line) (s : state) : state :=
  {| pace := pace s; total_processed := total_processed s;
     daily_requests := daily_requests s; file := f; console := console s |}.

(** [total_processed += 1; requests_this_minute += 1; daily_requests += 1] *)
Definition count (s : state) : state :=
  {| pace := count_request (pace s); total_processed := total_processed s + 1;
     daily_requests := daily_requests s + 1; file := file s; console := console s |}.

Definition attribute_list (a : attributes) : list string :=
  let '(category, wedding, people, location, description) := a in
  [category; wedding; people; location; description].

(** From [analyze_photo] to the flush: what happens to an image that is
    classified.  [analyze_photo] catches whatever is raised inside it, so the
    [except] around these lines has nothing to catch. *)
Definition classify (n_images : nat) (image_hash : string) (e : entry) (s : state) : state :=
  let s := print [Processing (total_processed s + 1) (Some n_images) (e_path e)] s in
  let s := with_pace (classify_now (e_path e) (pace s)) s in
  let '(a, out) := analyze_photo e in
  let s := print out (with_pace (elapse (Z.of_N (e_call_ms e)) (pace s)) s) in
  let processed_date := clock (pace s) in
  let s := with_file (writerow (Row {| row_path := e_path e; row_hash := image_hash;
                                        row_attributes := a; row_date := processed_date |})
                        (file s)) s in
  let s := print [Results (e_path e) (attribute_list a)] s in
  let s := count s in
  let s := with_pace (elapse second (pace s)) s in
  if total_processed s mod 10 =? 0 then with_file (flush (file s)) s else s.

(** One turn of [for image_path in all_images], after the daily check. *)
Definition body (processed_hashes : gmap string bool) (n_images : nat)
    (s : state) (e : entry) : state :=
  let '(image_hash, out) := get_image_hash e in
  let s := print out (with_pace (elapse (Z.of_N (e_lead_ms e)) (pace s)) s) in
  if bool_decide (is_Some (processed_hashes !! image_hash)) then
    print [SkippingByHash (e_path e)] s
  else
    let '(p, out) := throttle (pace s) in
    classify n_images image_hash e (print out (with_pace p s)).

Fixpoint loop (daily_limit : Z) (processed_hashes : gmap string bool) (n_images : nat)
    (s : state) (all_images : list entry) : state :=
  match all_images with
  | [] => s
  | e :: rest =>
      if daily_limit <=? daily_requests s then print [DailyLimitReached daily_limit] s
      else loop daily_limit processed_hashes n_images (body processed_hashes n_images s e) rest
  end.

(** "Collect all valid image paths" *)
Definition scan (processed_paths : gset string) (entries : list entry) : list entry :=
  List.filter (fun e => is_image e && negb (bool_decide (e_path e ∈ processed_paths))) entries.

Section Driver.

(** [random.sample(population, k)] for [0 <= k <= len(population)]. *)
Variable random_sample : list entry -> nat -> list entry.

(** "If sample_size is specified, take a random sample": the line is printed
    first, and a negative size makes [random.sample] raise. *)
Definition sample (sample_size : option Z) (all_images : list entry)
  : list message * result (list entry) :=
  match sample_size with
  | Some k =>
      if k <? Z.of_nat (length all_images) then
        ([TakingSample k],
         if k <? 0 then Raised "Sample larger than population or is negative"
         else Returned (random_sample all_images (Z.to_nat k)))
      else ([], Returned all_images)
  | None => ([], Returned all_images)
  end.

(** Leaving the [with] block closes the file, which flushes it. *)
Definition close (s : state) : state := with_file (flush (file s)) s.

(** Everything before the loop: the state in which the loop starts, with
    the index of hashes and the candidates, or the exception that ends the
    run.  The header is written when the ledger is new. *)
Definition start (api_key : option string) (ledger : option (result DataFrame))
    (entries : list entry) (t0 : Z) (sample_size : option Z)
  : state * result (gmap string bool * list entry) :=
  let s := print [SettingUp] (initial t0) in
  match setup_gemini api_key with
  | Raised msg => (s, Raised msg)
  | Returned model =>
      let '(processed_hashes, processed_paths, out) := get_processed_images ledger in
      let s := print ([SetupSuccessful] ++ out
                      ++ [FoundProcessed (size processed_hashes)]) s in
      let s := if ledger is None then with_file (writerow Header (file s)) s else s in
      let all_images := scan processed_paths entries in
      let s := print [Scanning; FoundNew (length all_images)] s in
      let '(out, sampled) := sample sample_size all_images in
      let s := print out s in
      match sampled with
      | Raised msg => (close s, Raised msg)
      | Returned all_images => (s, Returned (processed_hashes, all_images))
      end
  end.

(** The run stopped dead after [k] turns of the loop: nothing is printed or
    closed any more. *)
Definition interrupted (k : nat) (api_key : option string)
    (ledger : option (result DataFrame)) (entries : list entry) (t0 : Z)
    (daily_limit : Z) (sample_size : option Z) : state :=
  match start api_key ledger entries t0 sample_size with
  | (s, Returned (processed_hashes, all_images)) =>
      loop daily_limit processed_hashes (length all_images) s (take k all_images)
  | (s, Raised msg) => s
  end.

Definition process_folder (api_key : option string) (ledger : option (result DataFrame))
    (entries : list entry) (t0 : Z) (daily_limit : Z) (sample_size : option Z) : state :=
  match start api_key ledger entries t0 sample_size with
  | (s, Returned (processed_hashes, all_images)) =>
      let s := loop daily_limit processed_hashes (length all_images) s all_images in
      close (print [ProcessingComplete (total_processed s)] s)
  | (s, Raised msg) => print [ErrorOccurred msg] s
  end.

End Driver.

(** *** [analyze_results] *)

Definition count_of (v : string) (values : list string) : Z :=
  Z.of_nat (length (List.filter (String.eqb v) values)).

(** The distinct values in the order in which they first appear. *)
Fixpoint distinct (values : list string) : list string :=
  match values with
  | [] => []
  | v :: rest => v :: List.filter (fun w => negb (String.eqb v w)) (distinct rest)
  end.

Fixpoint insert_by_count (x : string * Z) (l : list (string * Z)) : list (string * Z) :=
  match l with
  | [] => [x]
  | y :: l' => if y.2 <=? x.2 then x :: l else y :: insert_by_count x l'
  end.

(** [series.value_counts()]: missing cells dropped, largest count first.
    Values with equal counts are kept here in the order of their first
    appearance; nothing below depends on how such ties are ordered. *)
Definition value_counts (cells : list (option string)) : list (string * Z) :=
  let values := strings_of cells in
  foldr insert_by_count [] ((fun v => (v, count_of v values)) <$> distinct values).

Definition float_of_Z (z : Z) : float := PrimFloat.of_uint63 (Uint63.of_Z z).

(** [numpy.rint] on the non-negative values below [2^52] that percentages
    are: adding and taking away [2^52] rounds to the nearest integer, ties to
    even. *)
Definition rint (x : float) : float :=
  (x + 4503599627370496 - 4503599627370496)%float.

(** [array.round(1)]: scale by ten, [rint], scale back. *)
Definition round1 (x : float) : float := (rint (x * 10) / 10)%float.

Definition percent (count : Z) (total_images : nat) : float :=
  (float_of_Z count / float_of_Z (Z.of_nat total_images) * 100)%float.

(** A row of the analysis file: Category, Count, Percentage. *)
Definition summary_row : Type := string * Z * float.

(** What a path of the file system holds: a table, given by what
    [pd.read_csv] does with it, or an analysis written by [to_csv]. *)
Inductive disk_file : Type :=
  | Csv (read_csv : result DataFrame)
  | Analysis (rows : list summary_row).

(** An analysis read back as a ledger has a [Category] column and no
    [Wedding] column; its two columns of numbers hold no string. *)
Definition read (f : disk_file) : result DataFrame :=
  match f with
  | Csv read_csv => read_csv
  | Analysis rows =>
      Returned {| columns := ["Category"; "Count"; "Percentage"];
                  records := (fun r => [Some r.1.1; None; None]) <$> rows |}
  end.

Definition analysis_file (csv_path : string) : string :=
  PyStr.replace csv_path ".csv" "_analysis.csv".

Definition analyze_results (fs : gmap string disk_file) (csv_path : string)
  : gmap string disk_file * list message :=
  match fs !! csv_path with
  | None => (fs, [NoResultsFile])
  | Some f =>
      match df ← read f;
            let total_images := length (records df) in
            category_cells ← column df "Category";
            let categories := value_counts category_cells in
            wedding_cells ← column df "Wedding";
            let weddings := value_counts wedding_cells in
            let summary :=
              AnalysisSummary total_images
                ((fun '(category, n) => (category, n, percent n total_images)) <$> take 10 categories)
                (take 10 weddings) in
            let categories_df :=
              (fun '(category, n) => (category, n, round1 (percent n total_images))) <$> categories in
            mret (summary, categories_df) with
      | Returned (summary, categories_df) =>
          (<[analysis_file csv_path := Analysis categories_df]> fs,
           [summary; AnalysisSaved (analysis_file csv_path)])
      | Raised msg => (fs, [ErrorAnalyzing msg])
      end
  end.

End Photo.


(** ** [tattoo_classifier.py]: the tattoo pipeline *)

Module Tattoo.

(** Primary style, secondary style, description. *)
Definition attributes : Type := string * string * string.

Definition load_failed : attributes := ("Error", "Error", "Failed to load image").

Definition process_failed (msg : string) : attributes :=
  ("Error", "Error", "Failed to process: " +:+ msg).

(** "Parse response" *)
Definition parse_response (text : string) : result attributes :=
  let lines := PyStr.split PyStr.newline (PyStr.strip text) in
  l0 ← item lines 0;
  let primary := PyStr.strip (PyStr.replace l0 "Primary: " "") in
  l1 ← item lines 1;
  let secondary := PyStr.strip (PyStr.replace l1 "Secondary: " "") in
  l2 ← item lines 2;
  let description := PyStr.strip (PyStr.replace l2 "Description: " "") in
  mret (primary, secondary, description).

Definition analyze_tattoo (e : entry) : attributes * list message :=
  match encode_image e with
  | (None, out) => (load_failed, out)
  | (Some image, out) =>
      match text ← e_reply e; parse_response text with
      | Returned a => (a, out)
      | Raised msg => (process_failed msg, out ++ [ErrorProcessing (e_path e) msg])
      end
  end.

Definition get_processed_images (ledger : option (result DataFrame))
  : gset string * list message :=
  match ledger with
  | None => (∅, [])
  | Some read_csv =>
      match df ← read_csv; paths ← column df "Image Path"; mret (path_set_of paths) with
      | Returned path_set => (path_set, [])
      | Raised msg => (∅, [ErrorReadingCsv msg])
      end
  end.

Record row : Type := {
  row_path : string;
  row_attributes : attributes;
  row_date : Z
}.

Inductive line : Type :=
  | Header
  | Row (r : row).

Record state : Type := {
  pace : pacing;
  total_processed : Z;
  file : outfile line;
  console : list message
}.

Definition initial (t0 : Z) : state :=
  {| pace := start_pacing t0; total_processed := 0; file := opened; console := [] |}.

Definition print (out : list message) (s : state) : state :=
  {| pace := pace s; total_processed := total_processed s; file := file s;
     console := console s ++ out |}.

Definition with_pace (p : pacing) (s : state) : state :=
  {| pace := p; total_processed := total_processed s; file := file s;
     console := console s |}.

Definition with_file (f : outfile line) (s : state) : state :=
  {| pace := pace s; total_processed := total_processed s; file := f;
     console := console s |}.

(** [total_processed += 1; requests_this_minute += 1] *)
Definition count (s : state) : state :=
  {| pace := count_request (pace s); total_processed := total_processed s + 1;
     file := file s; console := console s |}.

Definition attribute_list (a : attributes) : list string :=
  let '(primary, secondary, description) := a in [primary; secondary; description].

(** From [analyze_tattoo] to the pause after it. *)
Definition classify (e : entry) (s : state) : state :=
  let s := print [Processing (total_processed s + 1) None (e_path e)] s in
  let s := with_pace (classify_now (e_path e) (pace s)) s in
  let '(a, out) := analyze_tattoo e in
  let s := print out (with_pace (elapse (Z.of_N (e_call_ms e)) (pace s)) s) in
  let processed_date := clock (pace s) in
  let s := with_file (writerow (Row {| row_path := e_path e; row_attributes := a;
                                        row_date := processed_date |})
                        (file s)) s in
  let s := print [Results (e_path e) (attribute_list a)] s in
  let s := count s in
  with_pace (elapse second (pace s)) s.

(** One turn of [for image_path in folder.glob('**/*')]. *)
Definition body (processed_images : gset string) (s : state) (e : entry) : state :=
  if is_image e then
    if bool_decide (e_path e ∈ processed_images) then print [SkippingByPath (e_path e)] s
    else
      let s := with_pace (elapse (Z.of_N (e_lead_ms e)) (pace s)) s in
      let '(p, out) := throttle (pace s) in
      classify e (print out (with_pace p s))
  else s.

Definition loop (processed_images : gset string) (s : state) (entries : list entry) : state :=
  fold_left (body processed_images) entries s.

Definition close (s : state) : state := with_file (flush (file s)) s.

(** Everything before the loop. *)
Definition start (api_key : option string) (ledger : option (result DataFrame)) (t0 : Z)
  : state * result (gset string) :=
  let s := print [SettingUp] (initial t0) in
  match setup_gemini api_key with
  | Raised msg => (s, Raised msg)
  | Returned model =>
      let '(processed_images, out) := get_processed_images ledger in
      let s := print ([SetupSuccessful] ++ out
                      ++ [FoundProcessed (size processed_images)]) s in
      let s := if ledger is None then with_file (writerow Header (file s)) s else s in
      (s, Returned processed_images)
  end.

(** The run stopped dead after [k] turns of the loop. *)
Definition interrupted (k : nat) (api_key : option string)
    (ledger : option (result DataFrame)) (entries : list entry) (t0 : Z) : state :=
  match start api_key ledger t0 with
  | (s, Returned processed_images) => loop processed_images s (take k entries)
  | (s, Raised msg) => s
  end.

Definition process_folder (api_key : option string) (ledger : option (result DataFrame))
    (entries : list entry) (t0 : Z) : state :=
  match start api_key ledger t0 with
  | (s, Returned processed_images) =>
      let s := loop processed_images s entries in
      close (print [ProcessingComplete (total_processed s)] s)
  | (s, Raised msg) => print [ErrorOccurred msg] s
  end.

End Tattoo.


(** * Vocabulary of the properties

    The notions in which the properties below are stated, and the files,
    ledgers and answers on which they are tried. *)

Definition bytes_of_string (s : string) : list byte := list_byte_of_string s.

(** A photograph that can be read and decoded, with its content and the
    answer of the service for it. *)
Definition sample_entry (path : string) (content : string) (reply : result string) : entry :=
  {| e_path := path; e_suffix := ".jpg"; e_bytes := Returned (bytes_of_string content);
     e_decode := Returned tt; e_reply := reply; e_lead_ms := 0; e_call_ms := 0 |}.

(** How many of the logged classifications started at a time that [P]
    accepts. *)
Definition started (P : Z -> bool) (log : list (Z * string)) : nat :=
  length (List.filter (fun c => P c.1) log).

Definition since (a : Z) : Z -> bool := fun t => a <=? t.

Definition between (a b : Z) : Z -> bool := fun t => (a <=? t) && (t <? b).

(** Those that started in [[a, b)]. *)
Definition calls_in (a b : Z) (log : list (Z * string)) : nat :=
  started (between a b) log.

(** Arithmetic on times, with the predicates and the units unfolded. *)
Ltac clock_lia := unfold since, between, minute, second in *; simpl in *; lia.

(** What holds of the limiter's variables and of the history between any two
    steps of a run. *)
Record paced (p : pacing) : Prop := {
  paced_count : 0 <= requests_this_minute p <= 14;
  paced_clock : minute_start p <= clock p;
  paced_head : exists older, windows p = minute_start p :: older;
  paced_calls : forall c, c ∈ calls p ->
      c.1 < minute_start p + minute
      /\ exists w, w ∈ windows p /\ w <= c.1 < w + minute;
  paced_current :
      Z.of_nat (started (since (minute_start p)) (calls p)) = requests_this_minute p;
  paced_older : forall w, w ∈ windows p -> w <> minute_start p ->
      w + minute <= minute_start p /\ (calls_in w (w + minute) (calls p) <= 14)%nat;
  paced_recent : forall a, minute_start p - minute <= a ->
      (started (between a (minute_start p)) (calls p) <= 14)%nat;
  paced_past : forall a, a <= minute_start p - minute ->
      (calls_in a (a + minute) (calls p) <= 28)%nat
}.

(** The data rows among the lines of a ledger. *)
Definition photo_rows (lines : list Photo.line) : list Photo.row :=
  omap (fun l => match l with Photo.Row r => Some r | Photo.Header => None end) lines.

(** The row that a classified image gets. *)
Definition photo_row_of (image_hash : string) (e : entry) (s : Photo.state) : Photo.row :=
  {| Photo.row_path := e_path e; Photo.row_hash := image_hash;
     Photo.row_attributes := (Photo.analyze_photo e).1;
     Photo.row_date := clock (Photo.pace s) + Z.of_N (e_call_ms e) |}.

(** What holds of the loop's state between any two turns. *)
Record photo_ok (daily_limit : Z) (s : Photo.state) : Prop := {
  photo_paced : paced (Photo.pace s);
  photo_total : Photo.total_processed s = Z.of_nat (length (calls (Photo.pace s)));
  photo_daily : Photo.daily_requests s = Photo.total_processed s;
  photo_cap : Photo.daily_requests s <= Z.max 0 daily_limit;
  photo_written :
    Photo.row_path <$> photo_rows (written (Photo.file s)) = snd <$> calls (Photo.pace s);
  photo_durable :
    Z.of_nat (length (photo_rows (durable (Photo.file s))))
    = 10 * (Photo.total_processed s / 10)
}.

Definition tattoo_rows (lines : list Tattoo.line) : list Tattoo.row :=
  omap (fun l => match l with Tattoo.Row r => Some r | Tattoo.Header => None end) lines.

Definition tattoo_row_of (e : entry) (s : Tattoo.state) : Tattoo.row :=
  {| Tattoo.row_path := e_path e;
     Tattoo.row_attributes := (Tattoo.analyze_tattoo e).1;
     Tattoo.row_date := clock (Tattoo.pace s) + Z.of_N (e_call_ms e) |}.

(** The entries that the tattoo loop classifies. *)
Definition tattoo_new (processed_images : gset string) (e : entry) : bool :=
  is_image e && negb (bool_decide (e_path e ∈ processed_images)).

(** What holds of the tattoo loop's state between any two turns: no line is
    ever made durable while the loop runs. *)
Record tattoo_ok (s : Tattoo.state) : Prop := {
  tattoo_paced : paced (Tattoo.pace s);
  tattoo_total : Tattoo.total_processed s = Z.of_nat (length (calls (Tattoo.pace s)));
  tattoo_written :
    Tattoo.row_path <$> tattoo_rows (pending (Tattoo.file s)) = snd <$> calls (Tattoo.pace s);
  tattoo_durable : durable (Tattoo.file s) = []
}.

(** The rate property as the specification words it: no minute, wherever it
    starts, sees more than 14 classifications. *)
Definition rate_safe (log : list (Z * string)) : Prop :=
  forall a, (calls_in a (a + minute) log <= 14)%nat.

(** What the limiter does guarantee: at most 14 classifications in each of
    its own windows, every classification inside one of them, and so at most
    28 in a minute that straddles two windows. *)
Definition limited (p : pacing) : Prop :=
  (forall w, w ∈ windows p -> (calls_in w (w + minute) (calls p) <= 14)%nat)
  /\ (forall c, c ∈ calls p -> exists w, w ∈ windows p /\ w <= c.1 < w + minute)
  /\ (forall a, (calls_in a (a + minute) (calls p) <= 28)%nat).

(** An answer of the service in the format that the photo prompt asks for. *)
Definition beach_reply : string :=
  PyStr.join PyStr.newline
    ["Category: Travel"; "Wedding: N/A"; "People: You"; "Location: Beach";
     "Description: A walk on the beach"].

(** Twenty-eight photographs named [0.jpg], [1.jpg], ...; the first one takes
    [first_lead] milliseconds to fingerprint and the service takes
    [first_call] milliseconds to answer for it. *)
Definition burst_entry (first_lead first_call : N) (i : nat) : entry :=
  {| e_path := String (ascii_of_nat (48 + i)) ".jpg"; e_suffix := ".jpg";
     e_bytes := Returned (list_byte_of_string (String (ascii_of_nat (48 + i)) ".jpg"));
     e_decode := Returned tt;
     e_reply := Returned beach_reply;
     e_lead_ms := if i is O then first_lead else 0%N;
     e_call_ms := if i is O then first_call else 0%N |}.

Definition burst (first_lead first_call : N) : list entry :=
  burst_entry first_lead first_call <$> seq 0 28.

Definition first_k : list entry -> nat -> list entry := fun l k => take k l.

(** The durability property as the specification words it, for a driver
    stopped dead after any number of turns: once eleven rows have been
    appended, ten rows are on disk. *)
Definition durable_after_eleven (appended : Z) (on_disk : nat) : Prop :=
  11 <= appended -> (10 <= on_disk)%nat.

(** A ledger of the photo pipeline as [pandas] reads it back: one record for
    each path and fingerprint. *)
Definition photo_ledger (known : list (string * string)) : DataFrame :=
  {| columns := ["Image Path"; "Image Hash"; "Category"; "Wedding"; "People";
                 "Location"; "Description"; "Processed Date"];
     records := (fun r => [Some r.1; Some r.2; Some "Travel"; None; Some "You";
                           Some "Beach"; Some "A walk on the beach";
                           Some "2024-05-01 10:00:00"]) <$> known |}.

(** [a.jpg] is in the ledger; [b.jpg] is a copy of it under a new name. *)
Definition recorded_ledger : option (result DataFrame) :=
  Some (Returned (photo_ledger [("a.jpg", MD5.hexdigest (list_byte_of_string "pixels"))])).

Definition original : entry := sample_entry "a.jpg" "pixels" (Returned beach_reply).
Definition renamed_copy : entry := sample_entry "b.jpg" "pixels" (Returned beach_reply).

Definition photo_labels : list string :=
  ["Category: "; "Wedding: "; "People: "; "Location: "; "Description: "].

(** The format that the prompt asks for: as many lines as labels, each line
    beginning with its label. *)
Definition conforms (labels : list string) (text : string) : bool :=
  let lines := PyStr.split PyStr.newline (PyStr.strip text) in
  (length lines =? length labels)%nat
  && forallb (fun '(label, line) => PyStr.startswith label line) (zip labels lines).

(** Strict parsing as the specification words it: an answer that is not in
    the format gives the error record. *)
Definition strict_parsing : Prop :=
  forall e text,
    e_decode e = Returned tt -> e_reply e = Returned text ->
    conforms photo_labels text = false ->
    exists msg, (Photo.analyze_photo e).1 = Photo.process_failed msg.

(** The first two lines of the answer in the wrong order. *)
Definition swapped_reply : string :=
  PyStr.join PyStr.newline
    ["Wedding: N/A"; "Category: Travel"; "People: You"; "Location: Beach";
     "Description: A walk on the beach"].

(** A sentence before the five lines. *)
Definition preamble_reply : string :=
  PyStr.join PyStr.newline
    ["Here is the analysis:"; "Category: Travel"; "Wedding: N/A"; "People: You";
     "Location: Beach"; "Description: A walk on the beach"].

(** The three ways in which the classification of an image fails, each with
    the description that is recorded for it. *)
Inductive fails (e : entry) : string -> Prop :=
  | decode_failure msg :
      e_decode e = Raised msg -> fails e "Failed to load image"
  | service_failure msg :
      e_decode e = Returned tt -> e_reply e = Raised msg ->
      fails e ("Failed to process: " +:+ msg)
  | malformed_response text :
      e_decode e = Returned tt -> e_reply e = Returned text ->
      (length (PyStr.split PyStr.newline (PyStr.strip text)) < 5)%nat ->
      fails e "Failed to process: list index out of range".

(** A file that is not an image at all, and cannot even be read. *)
Definition broken_entry : entry :=
  {| e_path := "broken.jpg"; e_suffix := ".jpg"; e_bytes := Raised "Permission denied";
     e_decode := Raised "cannot identify image file"; e_reply := Raised "not asked";
     e_lead_ms := 0; e_call_ms := 0 |}.

Definition birthday_entry : entry :=
  sample_entry "c.jpg" "candles"
    (Returned (PyStr.join PyStr.newline
       ["Category: Birthday"; "Wedding: N/A"; "People: Family"; "Location: Indoors";
        "Description: A cake"])).

Definition undecodable_entry : entry :=
  {| e_path := "d.jpg"; e_suffix := ".JPG"; e_bytes := Returned (bytes_of_string "noise");
     e_decode := Raised "cannot identify image file"; e_reply := Raised "not asked";
     e_lead_ms := 0; e_call_ms := 0 |}.

(** Two states of the photo loop that agree on everything but what has been
    printed and on whether the file has a header. *)
Definition photo_same (s1 s2 : Photo.state) : Prop :=
  Photo.pace s1 = Photo.pace s2
  /\ Photo.total_processed s1 = Photo.total_processed s2
  /\ Photo.daily_requests s1 = Photo.daily_requests s2
  /\ photo_rows (written (Photo.file s1)) = photo_rows (written (Photo.file s2)).

(** The same for two states of the tattoo loop. *)
Definition tattoo_same (s1 s2 : Tattoo.state) : Prop :=
  Tattoo.pace s1 = Tattoo.pace s2
  /\ Tattoo.total_processed s1 = Tattoo.total_processed s2
  /\ tattoo_rows (written (Tattoo.file s1)) = tattoo_rows (written (Tattoo.file s2)).

(** A ledger of the tattoo pipeline as [pandas] reads it back. *)
Definition tattoo_ledger (known : list string) : DataFrame :=
  {| columns := ["Image Path"; "Primary Style"; "Secondary Style"; "Description";
                 "Processed Date"];
     records := (fun p => [Some p; Some "Traditional"; Some "Neo-traditional";
                           Some "A swallow"; Some "2024-05-01 10:00:00"]) <$> known |}.

Definition swallow_reply : string :=
  PyStr.join PyStr.newline
    ["Primary: Traditional"; "Secondary: Neo-traditional"; "Description: A swallow"].

Definition tattoo_original : entry := sample_entry "a.jpg" "ink" (Returned swallow_reply).
Definition tattoo_copy : entry := sample_entry "b.jpg" "ink" (Returned swallow_reply).


(** A ledger with three weddings and a birthday. *)
Definition party_ledger : DataFrame :=
  {| columns := ["Image Path"; "Image Hash"; "Category"; "Wedding"; "People";
                 "Location"; "Description"; "Processed Date"];
     records :=
       (fun r => [Some r.1; Some "d41d8cd98f00b204e9800998ecf8427e"; Some r.2;
                  None; Some "Family"; Some "Indoors"; Some "A party";
                  Some "2024-05-01 10:00:00"])
       <$> [("1.jpg", "Wedding"); ("2.jpg", "Birthday"); ("3.jpg", "Wedding");
            ("4.jpg", "Wedding")] |}.


(** ** Vocabulary of the further properties *)

(** A candidate whose fingerprint is not in the index. *)
Definition photo_fresh (processed_hashes : gmap string bool) (e : entry) : bool :=
  negb (bool_decide (is_Some (processed_hashes !! (Photo.get_image_hash e).1))).

(** What a row of the photo ledger says about its image, the date apart. *)
Definition photo_row_core (r : Photo.row) : string * string * Photo.attributes :=
  (Photo.row_path r, Photo.row_hash r, Photo.row_attributes r).

(** What the photo pipeline finds out about an image. *)
Definition photo_entry_core (e : entry) : string * string * Photo.attributes :=
  (e_path e, (Photo.get_image_hash e).1, (Photo.analyze_photo e).1).

Definition tattoo_row_core (r : Tattoo.row) : string * Tattoo.attributes :=
  (Tattoo.row_path r, Tattoo.row_attributes r).

Definition tattoo_entry_core (e : entry) : string * Tattoo.attributes :=
  (e_path e, (Tattoo.analyze_tattoo e).1).

(** [c in s] for a character. *)
Fixpoint has_char (c : ascii) (s : string) : bool :=
  match s with
  | EmptyString => false
  | String b s' => Ascii.eqb b c || has_char c s'
  end.

(** A value that an answer can carry on the line of [label] and that comes
    back as it is: on one line, without white space around it, and without
    the label inside it. *)
Definition clean_value (label v : string) : bool :=
  negb (has_char PyStr.newline v) && String.eqb (PyStr.strip v) v
  && negb (PyStr.contains label v).

(** Strings that [rstrip] leaves alone, the empty one apart. *)
Definition tight (s : string) : Prop := PyStr.rstrip s = s /\ s <> "".

(** What the turn of an image that is classified does to the limiter's
    variables, in either loop: the time before the limiter, the limiter, the
    classification, the count and the pause of a second. *)
Definition turn (e : entry) (p : pacing) : pacing :=
  elapse second
    (count_request
       (elapse (Z.of_N (e_call_ms e))
          (classify_now (e_path e) (throttle (elapse (Z.of_N (e_lead_ms e)) p)).1))).

(** The first of two classifications starts a second or more before the
    other. *)
Definition a_second_apart (a b : Z * string) : Prop := a.1 + second <= b.1.

(** The classifications started one after the other, a second or more apart,
    the last of them a second or more ago. *)
Definition spaced (p : pacing) : Prop :=
  StronglySorted a_second_apart (calls p)
  /\ Forall (fun c => c.1 + second <= clock p) (calls p).

(** A line about waiting names a wait that [time.sleep] accepts and that is
    no longer than a minute. *)
Definition sound_wait (m : message) : Prop :=
  match m with
  | RateLimitWaiting wait_ms => 0 < wait_ms <= minute
  | _ => True
  end.

(** What [random.sample(population, k)] returns for [k] within the
    population: [k] of its elements, none taken more often than it is there. *)
Definition draws (random_sample : list entry -> nat -> list entry) : Prop :=
  forall population k,
    (k <= length population)%nat ->
    length (random_sample population k) = k /\ random_sample population k ⊆+ population.

(** The sum of a column of counts. *)
Definition total (counts : list Z) : Z := foldr Z.add 0 counts.



(** * Properties *)

(** ** Checks of the embedding on known values *)

Example split_ex :
  PyStr.split PyStr.newline
    (PyStr.strip (" a" +:+ String PyStr.newline "b" +:+ String PyStr.newline (String PyStr.newline " ")))
  = ["a"; "b"].
Proof. reflexivity. Qed.

Example replace_ex : PyStr.replace "xCategory: aCategory: " "Category: " "" = "xa".
Proof. reflexivity. Qed.

(** The test suite of RFC 1321. *)
Example md5_empty : MD5.hexdigest [] = "d41d8cd98f00b204e9800998ecf8427e".
Proof. vm_compute. reflexivity. Qed.

Example md5_abc : MD5.hexdigest (bytes_of_string "abc") = "900150983cd24fb0d6963f7d28e17f72".
Proof. vm_compute. reflexivity. Qed.

Example md5_digits :
  MD5.hexdigest (bytes_of_string
    "12345678901234567890123456789012345678901234567890123456789012345678901234567890")
  = "57edf4a22be3c955ac49da2e2107b67a".
Proof. vm_compute. reflexivity. Qed.

(** ** The fingerprint *)

Lemma hex_of_bytes_length (bs : list Z) :
  String.length (MD5.hex_of_bytes bs) = (2 * length bs)%nat.
Proof. induction bs as [|b bs IH]; simpl; [reflexivity | rewrite IH; lia]. Qed.

Lemma digest_length (msg : list byte) : length (MD5.digest msg) = 16%nat.
Proof.
  unfold MD5.digest.
  destruct (fold_left _ _ _) as [[[a b] c] d].
  reflexivity.
Qed.

Lemma hexdigest_length (msg : list byte) : String.length (MD5.hexdigest msg) = 32%nat.
Proof. unfold MD5.hexdigest. rewrite hex_of_bytes_length, digest_length. reflexivity. Qed.

(** C7. For a file that can be read, [get_image_hash] returns the MD5 digest
    of its first 8192 bytes (of all of it when it is shorter), 32 hexadecimal
    characters long, and two files that agree on that prefix get the same
    digest; for a file that cannot be opened or read it returns the path. *)
Theorem get_image_hash_contract (e : entry) :
  (forall content, e_bytes e = Returned content ->
     (Photo.get_image_hash e).1 = MD5.hexdigest (take Photo.prefix_size content)
     /\ String.length (Photo.get_image_hash e).1 = 32%nat
     /\ ((length content <= Photo.prefix_size)%nat ->
         (Photo.get_image_hash e).1 = MD5.hexdigest content)
     /\ (forall e' content', e_bytes e' = Returned content' ->
           take Photo.prefix_size content' = take Photo.prefix_size content ->
           (Photo.get_image_hash e').1 = (Photo.get_image_hash e).1))
  /\ (forall msg, e_bytes e = Raised msg ->
        Photo.get_image_hash e = (e_path e, [ErrorHashing (e_path e) msg])).
Proof.
  split.
  - intros content Hc. unfold Photo.get_image_hash. rewrite Hc. simpl.
    repeat split.
    + apply hexdigest_length.
    + intros Hlen. by rewrite take_ge.
    + intros e' content' Hc' Heq. rewrite Hc'. simpl. by rewrite Heq.
  - intros msg Hc. unfold Photo.get_image_hash. by rewrite Hc.
Qed.

Lemma get_image_hash_contract_witness :
  (Photo.get_image_hash (sample_entry "a.jpg" "abc" (Raised "offline"))).1
  = "900150983cd24fb0d6963f7d28e17f72".
Proof.
  destruct (get_image_hash_contract (sample_entry "a.jpg" "abc" (Raised "offline")))
    as [Hread _].
  destruct (Hread (bytes_of_string "abc") eq_refl) as (_ & _ & Hall & _).
  rewrite Hall; [ vm_compute; reflexivity | vm_compute; lia ].
Defined.

(** ** The per-minute limiter *)

Lemma started_app P l1 l2 : started P (l1 ++ l2) = (started P l1 + started P l2)%nat.
Proof. unfold started. by rewrite List.filter_app, length_app. Qed.

Lemma started_snoc P l t (x : string) :
  started P (l ++ [(t, x)]) = (started P l + (if P t then 1 else 0))%nat.
Proof. rewrite started_app. unfold started at 2. simpl. by destruct (P t). Qed.

Lemma started_le (P Q : Z -> bool) log :
  (forall c, c ∈ log -> P c.1 = true -> Q c.1 = true) ->
  (started P log <= started Q log)%nat.
Proof.
  unfold started. induction log as [|c log IH]; intros H; simpl; [lia|].
  assert (IH' := IH (fun c' Hc' => H c' (list_elem_of_further _ _ _ Hc'))).
  destruct (P c.1) eqn:HP.
  - rewrite (H c (list_elem_of_here _ _) HP). simpl. lia.
  - destruct (Q c.1); simpl; lia.
Qed.

Lemma started_split (P Q R : Z -> bool) log :
  (forall c, c ∈ log -> P c.1 = true -> Q c.1 = true \/ R c.1 = true) ->
  (started P log <= started Q log + started R log)%nat.
Proof.
  unfold started. induction log as [|c log IH]; intros H; simpl; [lia|].
  assert (IH' := IH (fun c' Hc' => H c' (list_elem_of_further _ _ _ Hc'))).
  destruct (P c.1) eqn:HP.
  - destruct (H c (list_elem_of_here _ _) HP) as [HQ|HR].
    + rewrite HQ. destruct (R c.1); simpl; lia.
    + rewrite HR. destruct (Q c.1); simpl; lia.
  - destruct (Q c.1); destruct (R c.1); simpl; lia.
Qed.

Lemma started_none (P : Z -> bool) log :
  (forall c, c ∈ log -> P c.1 = false) -> started P log = 0%nat.
Proof.
  unfold started. induction log as [|c log IH]; intros H; simpl; [done|].
  rewrite (H c (list_elem_of_here _ _)).
  apply IH. intros c' Hc'. apply H. by apply list_elem_of_further.
Qed.

Lemma paced_start t0 : paced (start_pacing t0).
Proof.
  split; simpl; try done; try clock_lia.
  - by exists [].
  - intros c Hc. by apply elem_of_nil in Hc.
  - intros w Hw Hne. apply list_elem_of_singleton in Hw. done.
  - intros. unfold started. simpl. clock_lia.
  - intros. unfold calls_in, started. simpl. clock_lia.
Qed.

Lemma paced_elapse d p : 0 <= d -> paced p -> paced (elapse d p).
Proof.
  intros Hd [H1 H2 H3 H4 H5 H6 H7 H8].
  split; simpl; try done. clock_lia.
Qed.

(** A window that is over can be followed by one that starts now. *)
Lemma paced_new_window p :
  minute_start p + minute <= clock p -> paced p -> paced (new_window p).
Proof.
  intros Hover [H1 H2 [older H3] H4 H5 H6 H7 H8].
  assert (Hold : forall c, c ∈ calls p -> c.1 < clock p).
  { intros c Hc. destruct (H4 c Hc) as [Hlt _]. clock_lia. }
  split; simpl.
  - clock_lia.
  - clock_lia.
  - by exists (windows p).
  - intros c Hc. destruct (H4 c Hc) as [Hlt (w & Hw & Hin)]. split.
    + clock_lia.
    + exists w. split; [by apply list_elem_of_further | done].
  - rewrite started_none; [done|].
    intros c Hc. specialize (Hold c Hc). clock_lia.
  - intros w Hw Hne. apply elem_of_cons in Hw as [->|Hw]; [done|].
    destruct (decide (w = minute_start p)) as [->|Hne'].
    + split; [done|].
      assert (Hle : (calls_in (minute_start p) (minute_start p + minute) (calls p)
                     <= started (since (minute_start p)) (calls p))%nat).
      { apply started_le. intros c _ Hc. clock_lia. }
      clock_lia.
    + destruct (H6 w Hw Hne') as [Hgap Hcount]. split; [clock_lia | done].
  - intros a Ha.
    assert (Hle : (started (between a (clock p)) (calls p)
                   <= started (since (minute_start p)) (calls p))%nat).
    { apply started_le. intros c _ Hc. clock_lia. }
    clock_lia.
  - intros a Ha.
    destruct (decide (a <= minute_start p - minute)) as [Hfar|Hnear]; [by apply H8|].
    assert (Hle : (calls_in a (a + minute) (calls p)
                   <= started (between a (minute_start p)) (calls p)
                      + started (since (minute_start p)) (calls p))%nat).
    { apply started_split. intros c _ Hc. clock_lia. }
    assert (H7' := H7 a ltac:(clock_lia)). clock_lia.
Qed.

(** After the limiter the window has room and is still open. *)
Lemma paced_throttle p :
  paced p ->
  paced (throttle p).1
  /\ requests_this_minute (throttle p).1 < 14
  /\ clock (throttle p).1 - minute_start (throttle p).1 < minute
  /\ clock p <= clock (throttle p).1.
Proof.
  intros Hp. unfold throttle.
  destruct (minute <=? clock p - minute_start p) eqn:Hreset.
  - assert (Hn : paced (new_window p)) by (apply paced_new_window; [clock_lia | done]).
    simpl. refine (conj Hn _). clock_lia.
  - destruct (14 <=? requests_this_minute p) eqn:Hfull; simpl.
    + assert (Hn : paced (new_window (elapse (minute - (clock p - minute_start p)) p))).
      { apply paced_new_window; [clock_lia|]. apply paced_elapse; [clock_lia | done]. }
      refine (conj Hn _). clock_lia.
    + refine (conj Hp _). clock_lia.
Qed.

(** A classification that starts in a window with room, takes [d], and is
    then counted. *)
Lemma paced_classify path d p :
  0 <= d -> requests_this_minute p < 14 -> clock p - minute_start p < minute ->
  paced p -> paced (count_request (elapse d (classify_now path p))).
Proof.
  intros Hd Hroom Hopen [H1 H2 [older H3] H4 H5 H6 H7 H8].
  split; simpl.
  - clock_lia.
  - clock_lia.
  - by exists older.
  - intros c Hc. apply elem_of_app in Hc as [Hc|Hc]; [by apply H4|].
    apply list_elem_of_singleton in Hc as ->. simpl. split; [clock_lia|].
    exists (minute_start p). split; [rewrite H3; apply list_elem_of_here | clock_lia].
  - rewrite started_snoc.
    destruct (since (minute_start p) (clock p)) eqn:Hin; clock_lia.
  - intros w Hw Hne. destruct (H6 w Hw Hne) as [Hgap Hcount]. split; [done|].
    unfold calls_in in *. rewrite started_snoc.
    destruct (between w (w + minute) (clock p)) eqn:Hin; clock_lia.
  - intros a Ha. rewrite started_snoc. specialize (H7 a Ha).
    destruct (between a (minute_start p) (clock p)) eqn:Hin; clock_lia.
  - intros a Ha. unfold calls_in in *. rewrite started_snoc. specialize (H8 a Ha).
    destruct (between a (a + minute) (clock p)) eqn:Hin; clock_lia.
Qed.

(** In a paced history no window of the limiter holds more than 14
    classifications, and no minute at all more than 28. *)
Lemma paced_window p w :
  paced p -> w ∈ windows p -> (calls_in w (w + minute) (calls p) <= 14)%nat.
Proof.
  intros [H1 H2 H3 H4 H5 H6 H7 H8] Hw.
  destruct (decide (w = minute_start p)) as [->|Hne]; [|by apply H6].
  assert (Hle : (calls_in (minute_start p) (minute_start p + minute) (calls p)
                 <= started (since (minute_start p)) (calls p))%nat).
  { apply started_le. intros c _ Hc. clock_lia. }
  clock_lia.
Qed.

Lemma paced_sliding p a : paced p -> (calls_in a (a + minute) (calls p) <= 28)%nat.
Proof.
  intros [H1 H2 H3 H4 H5 H6 H7 H8].
  destruct (decide (a <= minute_start p - minute)) as [Hfar|Hnear]; [by apply H8|].
  assert (Hle : (calls_in a (a + minute) (calls p)
                 <= started (between a (minute_start p)) (calls p)
                    + started (since (minute_start p)) (calls p))%nat).
  { apply started_split. intros c _ Hc. clock_lia. }
  assert (H7' := H7 a ltac:(clock_lia)). clock_lia.
Qed.

(** ** The photo loop, step by step *)

Lemma photo_rows_app l1 l2 : photo_rows (l1 ++ l2) = photo_rows l1 ++ photo_rows l2.
Proof. apply omap_app. Qed.

(** What [classify] does to each part of the state. *)
Lemma photo_classify_spec n image_hash e s :
  let s' := Photo.classify n image_hash e s in
  Photo.pace s'
  = elapse second (count_request (elapse (Z.of_N (e_call_ms e))
                                    (classify_now (e_path e) (Photo.pace s))))
  /\ Photo.total_processed s' = Photo.total_processed s + 1
  /\ Photo.daily_requests s' = Photo.daily_requests s + 1
  /\ written (Photo.file s')
     = written (Photo.file s) ++ [Photo.Row (photo_row_of image_hash e s)]
  /\ durable (Photo.file s')
     = (if (Photo.total_processed s + 1) mod 10 =? 0
        then written (Photo.file s) ++ [Photo.Row (photo_row_of image_hash e s)]
        else durable (Photo.file s))
  /\ Photo.console s'
     = Photo.console s ++ [Processing (Photo.total_processed s + 1) (Some n) (e_path e)]
       ++ (Photo.analyze_photo e).2
       ++ [Results (e_path e) (Photo.attribute_list (Photo.analyze_photo e).1)].
Proof.
  unfold Photo.classify, photo_row_of.
  destruct (Photo.analyze_photo e) as [a out]. simpl.
  destruct ((Photo.total_processed s + 1) mod 10 =? 0); simpl;
    unfold written; simpl; rewrite <- ?app_assoc; simpl; repeat split; reflexivity.
Qed.

(** An image whose fingerprint is known: time passes, a line is printed. *)
Lemma photo_body_skip hashes n s e :
  is_Some (hashes !! (Photo.get_image_hash e).1) ->
  Photo.body hashes n s e
  = Photo.print ((Photo.get_image_hash e).2 ++ [SkippingByHash (e_path e)])
      (Photo.with_pace (elapse (Z.of_N (e_lead_ms e)) (Photo.pace s)) s).
Proof.
  intros Hknown. unfold Photo.body.
  destruct (Photo.get_image_hash e) as [h out]. simpl in *.
  rewrite bool_decide_eq_true_2 by done.
  unfold Photo.print. simpl. by rewrite <- app_assoc.
Qed.

(** An image whose fingerprint is new: the limiter, then [classify]. *)
Lemma photo_body_new hashes n s e :
  hashes !! (Photo.get_image_hash e).1 = None ->
  Photo.body hashes n s e
  = let s1 := Photo.print (Photo.get_image_hash e).2
                (Photo.with_pace (elapse (Z.of_N (e_lead_ms e)) (Photo.pace s)) s) in
    Photo.classify n (Photo.get_image_hash e).1 e
      (Photo.print (throttle (Photo.pace s1)).2
         (Photo.with_pace (throttle (Photo.pace s1)).1 s1)).
Proof.
  intros Hnew. unfold Photo.body.
  destruct (Photo.get_image_hash e) as [h out]. simpl in *.
  rewrite bool_decide_eq_false_2 by (rewrite Hnew; by intros [? ?]).
  by destruct (throttle _) as [p out'].
Qed.

Lemma photo_ok_print limit out s : photo_ok limit s -> photo_ok limit (Photo.print out s).
Proof. intros [H1 H2 H3 H4 H5 H6]. by split. Qed.

Lemma photo_ok_elapse limit d s :
  0 <= d -> photo_ok limit s ->
  photo_ok limit (Photo.with_pace (elapse d (Photo.pace s)) s).
Proof. intros Hd [H1 H2 H3 H4 H5 H6]. split; try done. by apply paced_elapse. Qed.

Lemma photo_ok_body limit hashes n s e :
  Photo.daily_requests s < limit ->
  photo_ok limit s -> photo_ok limit (Photo.body hashes n s e).
Proof.
  intros Hroom Hok.
  destruct (hashes !! (Photo.get_image_hash e).1) as [b|] eqn:Hh.
  - rewrite photo_body_skip by (rewrite Hh; eauto).
    apply photo_ok_print, photo_ok_elapse; [lia | done].
  - rewrite photo_body_new by done. cbv zeta.
    set (s1 := Photo.print _ (Photo.with_pace (elapse _ _) s)).
    assert (Hok1 : photo_ok limit s1) by (apply photo_ok_print, photo_ok_elapse; [lia | done]).
    assert (Hsame : Photo.daily_requests s1 = Photo.daily_requests s) by reflexivity.
    clearbody s1.
    destruct Hok1 as [H1 H2 H3 H4 H5 H6].
    destruct (paced_throttle (Photo.pace s1) H1) as (Hp & Hfree & Hopen & _).
    assert (Hcalls : calls (throttle (Photo.pace s1)).1 = calls (Photo.pace s1)).
    { unfold throttle. repeat case_match; reflexivity. }
    set (s2 := Photo.print _ (Photo.with_pace (throttle (Photo.pace s1)).1 s1)).
    destruct (photo_classify_spec n (Photo.get_image_hash e).1 e s2)
      as (Epace & Etotal & Edaily & Ewritten & Edurable & _).
    assert (E2 : Photo.pace s2 = (throttle (Photo.pace s1)).1
                 /\ Photo.total_processed s2 = Photo.total_processed s1
                 /\ Photo.daily_requests s2 = Photo.daily_requests s1
                 /\ Photo.file s2 = Photo.file s1) by done.
    clearbody s2.
    destruct E2 as (Ep2 & Et2 & Ed2 & Ef2).
    rewrite Ep2, Et2, Ed2, Ef2 in *. clear Ep2 Et2 Ed2 Ef2.
    assert (Hlen : length (photo_rows (written (Photo.file s1)))
                   = length (calls (Photo.pace s1))).
    { rewrite <- (length_fmap Photo.row_path), H5. apply length_fmap. }
    split.
    + rewrite Epace. apply paced_elapse; [clock_lia|].
      apply paced_classify; [lia | done | done | done].
    + rewrite Etotal, Epace. simpl. rewrite Hcalls, length_app. simpl. lia.
    + rewrite Etotal, Edaily. lia.
    + rewrite Edaily. lia.
    + rewrite Ewritten, Epace. simpl.
      rewrite photo_rows_app, !fmap_app, Hcalls, H5. reflexivity.
    + rewrite Etotal, Edurable.
      destruct ((Photo.total_processed s1 + 1) mod 10 =? 0) eqn:Hten.
      * apply Z.eqb_eq in Hten.
        rewrite photo_rows_app, length_app. simpl. rewrite Hlen.
        Z.div_mod_to_equations. lia.
      * apply Z.eqb_neq in Hten. rewrite H6. Z.div_mod_to_equations. lia.
Qed.

Lemma photo_ok_loop limit hashes n l s :
  photo_ok limit s -> photo_ok limit (Photo.loop limit hashes n s l).
Proof.
  revert s. induction l as [|e l IH]; intros s Hok; simpl; [done|].
  destruct (limit <=? Photo.daily_requests s) eqn:Hfull.
  - by apply photo_ok_print.
  - apply IH, photo_ok_body; [lia | done].
Qed.

Lemma photo_ok_initial limit t0 : photo_ok limit (Photo.initial t0).
Proof. split; simpl; try done; try lia. apply paced_start. Qed.

Lemma photo_ok_header limit s :
  Photo.file s = opened -> photo_ok limit s ->
  photo_ok limit (Photo.with_file (writerow Photo.Header (Photo.file s)) s).
Proof.
  intros Hfile [P1 P2 P3 P4 P5 P6]. rewrite Hfile in *.
  split; try done.
Qed.

Lemma photo_ok_start rs limit api_key ledger entries t0 sample_size s hashes imgs :
  Photo.start rs api_key ledger entries t0 sample_size = (s, Returned (hashes, imgs)) ->
  photo_ok limit s.
Proof.
  unfold Photo.start.
  destruct (setup_gemini api_key) as [msg|model]; [done|].
  destruct (Photo.get_processed_images ledger) as [[hashes' paths] out].
  set (s1 := Photo.print _ (Photo.print [SettingUp] (Photo.initial t0))).
  assert (H1 : photo_ok limit s1) by (do 2 apply photo_ok_print; apply photo_ok_initial).
  assert (Hfile : Photo.file s1 = opened) by reflexivity.
  clearbody s1.
  set (s2 := if ledger is None then _ else s1).
  assert (H2 : photo_ok limit s2).
  { subst s2. destruct ledger; [done|]. by apply photo_ok_header. }
  clearbody s2.
  destruct (Photo.sample rs sample_size _) as [out' [msg|imgs']]; [done|].
  intros [= <- _ _]. by do 2 apply photo_ok_print.
Qed.

Lemma written_flush {R : Type} (f : outfile R) : written (flush f) = written f.
Proof. unfold written, flush. simpl. by rewrite app_nil_r. Qed.

(** Whatever [start] returns, the state it leaves is in order. *)
Lemma photo_ok_started rs limit api_key ledger entries t0 sample_size :
  photo_ok limit (Photo.start rs api_key ledger entries t0 sample_size).1.
Proof.
  destruct (Photo.start rs api_key ledger entries t0 sample_size) as [s [msg|[hashes imgs]]] eqn:E;
    [|by eapply photo_ok_start].
  simpl. revert E. unfold Photo.start.
  destruct (setup_gemini api_key) as [msg'|model].
  { intros [= <- _]. apply photo_ok_print, photo_ok_initial. }
  destruct (Photo.get_processed_images ledger) as [[hashes' paths] out].
  set (s1 := Photo.print _ (Photo.print [SettingUp] (Photo.initial t0))).
  assert (H1 : photo_ok limit s1) by (do 2 apply photo_ok_print; apply photo_ok_initial).
  assert (Hfile : Photo.file s1 = opened) by reflexivity.
  assert (Htotal : Photo.total_processed s1 = 0) by reflexivity.
  clearbody s1.
  destruct (Photo.sample rs sample_size _) as [out' [msg'|imgs']]; [|done].
  intros [= <- _].
  destruct H1 as [P1 P2 P3 P4 P5 P6].
  destruct ledger; (split; [done..| |]); simpl; rewrite Hfile, ?Htotal; try done.
  all: unfold written; simpl; rewrite <- P5, Hfile; done.
Qed.

Lemma photo_ok_interrupted rs k limit api_key ledger entries t0 sample_size :
  photo_ok limit (Photo.interrupted rs k api_key ledger entries t0 limit sample_size).
Proof.
  unfold Photo.interrupted.
  assert (H := photo_ok_started rs limit api_key ledger entries t0 sample_size).
  destruct (Photo.start _ _ _ _ _ _) as [s [msg|[hashes imgs]]]; simpl in H; [done|].
  by apply photo_ok_loop.
Qed.

(** The end of a run keeps what the loop has reached: it prints and closes
    the file. *)
Lemma photo_process_folder_ok rs limit api_key ledger entries t0 sample_size :
  exists s, photo_ok limit s
    /\ Photo.pace (Photo.process_folder rs api_key ledger entries t0 limit sample_size)
       = Photo.pace s
    /\ Photo.total_processed
         (Photo.process_folder rs api_key ledger entries t0 limit sample_size)
       = Photo.total_processed s
    /\ Photo.daily_requests
         (Photo.process_folder rs api_key ledger entries t0 limit sample_size)
       = Photo.daily_requests s
    /\ written (Photo.file
         (Photo.process_folder rs api_key ledger entries t0 limit sample_size))
       = written (Photo.file s).
Proof.
  unfold Photo.process_folder.
  assert (H := photo_ok_started rs limit api_key ledger entries t0 sample_size).
  destruct (Photo.start _ _ _ _ _ _) as [s [msg|[hashes imgs]]]; simpl in H.
  - exists s. split; [exact H|]. by repeat split.
  - exists (Photo.loop limit hashes (length imgs) s imgs).
    split; [by apply photo_ok_loop|]. repeat split. simpl. apply written_flush.
Qed.

(** ** The tattoo loop, step by step *)

Lemma tattoo_rows_app l1 l2 : tattoo_rows (l1 ++ l2) = tattoo_rows l1 ++ tattoo_rows l2.
Proof. apply omap_app. Qed.

Lemma tattoo_classify_spec e s :
  let s' := Tattoo.classify e s in
  Tattoo.pace s'
  = elapse second (count_request (elapse (Z.of_N (e_call_ms e))
                                    (classify_now (e_path e) (Tattoo.pace s))))
  /\ Tattoo.total_processed s' = Tattoo.total_processed s + 1
  /\ pending (Tattoo.file s') = pending (Tattoo.file s) ++ [Tattoo.Row (tattoo_row_of e s)]
  /\ durable (Tattoo.file s') = durable (Tattoo.file s).
Proof.
  unfold Tattoo.classify, tattoo_row_of.
  destruct (Tattoo.analyze_tattoo e) as [a out]. simpl. repeat split; reflexivity.
Qed.

Lemma tattoo_body_old paths s e :
  tattoo_new paths e = false ->
  Tattoo.body paths s e
  = if is_image e then Tattoo.print [SkippingByPath (e_path e)] s else s.
Proof.
  unfold tattoo_new, Tattoo.body. destruct (is_image e); [|done].
  simpl. destruct (bool_decide _); done.
Qed.

Lemma tattoo_body_new paths s e :
  tattoo_new paths e = true ->
  Tattoo.body paths s e
  = let s1 := Tattoo.with_pace (elapse (Z.of_N (e_lead_ms e)) (Tattoo.pace s)) s in
    Tattoo.classify e
      (Tattoo.print (throttle (Tattoo.pace s1)).2
         (Tattoo.with_pace (throttle (Tattoo.pace s1)).1 s1)).
Proof.
  unfold tattoo_new, Tattoo.body. destruct (is_image e); [|done].
  simpl. destruct (bool_decide _); [done|]. intros _.
  by destruct (throttle _) as [p out].
Qed.

Lemma tattoo_ok_print out s : tattoo_ok s -> tattoo_ok (Tattoo.print out s).
Proof. intros [H1 H2 H3 H4]. by split. Qed.

Lemma tattoo_ok_body paths s e : tattoo_ok s -> tattoo_ok (Tattoo.body paths s e).
Proof.
  intros Hok.
  destruct (tattoo_new paths e) eqn:Hnew.
  - rewrite tattoo_body_new by done. cbv zeta.
    set (s1 := Tattoo.with_pace (elapse _ _) s).
    assert (Hok1 : tattoo_ok s1).
    { destruct Hok as [H1 H2 H3 H4]. split; try done. apply paced_elapse; [lia | done]. }
    clearbody s1.
    destruct Hok1 as [H1 H2 H3 H4].
    destruct (paced_throttle (Tattoo.pace s1) H1) as (Hp & Hfree & Hopen & _).
    assert (Hcalls : calls (throttle (Tattoo.pace s1)).1 = calls (Tattoo.pace s1)).
    { unfold throttle. repeat case_match; reflexivity. }
    set (s2 := Tattoo.print _ (Tattoo.with_pace (throttle (Tattoo.pace s1)).1 s1)).
    destruct (tattoo_classify_spec e s2) as (Epace & Etotal & Epending & Edurable).
    assert (E2 : Tattoo.pace s2 = (throttle (Tattoo.pace s1)).1
                 /\ Tattoo.total_processed s2 = Tattoo.total_processed s1
                 /\ Tattoo.file s2 = Tattoo.file s1) by done.
    clearbody s2.
    destruct E2 as (Ep2 & Et2 & Ef2).
    rewrite Ep2, Et2, Ef2 in *. clear Ep2 Et2 Ef2.
    split.
    + rewrite Epace. apply paced_elapse; [clock_lia|].
      apply paced_classify; [lia | done | done | done].
    + rewrite Etotal, Epace. simpl. rewrite Hcalls, length_app. simpl. lia.
    + rewrite Epending, Epace. simpl.
      rewrite tattoo_rows_app, !fmap_app, Hcalls, H3. reflexivity.
    + by rewrite Edurable.
  - rewrite tattoo_body_old by done. destruct (is_image e); [|done].
    by apply tattoo_ok_print.
Qed.

Lemma tattoo_ok_loop paths l s : tattoo_ok s -> tattoo_ok (Tattoo.loop paths s l).
Proof.
  unfold Tattoo.loop. revert s.
  induction l as [|e l IH]; intros s Hok; simpl; [done|].
  by apply IH, tattoo_ok_body.
Qed.

Lemma tattoo_ok_started api_key ledger t0 : tattoo_ok (Tattoo.start api_key ledger t0).1.
Proof.
  unfold Tattoo.start.
  assert (H0 : tattoo_ok (Tattoo.initial t0)).
  { split; simpl; try done. apply paced_start. }
  destruct (setup_gemini api_key) as [msg|model]; simpl; [by apply tattoo_ok_print|].
  destruct (Tattoo.get_processed_images ledger) as [paths out]. simpl.
  destruct ledger; [by do 2 apply tattoo_ok_print|].
  destruct H0 as [H1 H2 H3 H4]. by split.
Qed.

Lemma tattoo_ok_interrupted k api_key ledger entries t0 :
  tattoo_ok (Tattoo.interrupted k api_key ledger entries t0).
Proof.
  unfold Tattoo.interrupted.
  assert (H := tattoo_ok_started api_key ledger t0).
  destruct (Tattoo.start _ _ _) as [s [msg|paths]]; simpl in H; [done|].
  by apply tattoo_ok_loop.
Qed.

Lemma tattoo_process_folder_ok api_key ledger entries t0 :
  exists s, tattoo_ok s
    /\ Tattoo.pace (Tattoo.process_folder api_key ledger entries t0) = Tattoo.pace s
    /\ Tattoo.total_processed (Tattoo.process_folder api_key ledger entries t0)
       = Tattoo.total_processed s
    /\ written (Tattoo.file (Tattoo.process_folder api_key ledger entries t0))
       = written (Tattoo.file s).
Proof.
  unfold Tattoo.process_folder.
  assert (H := tattoo_ok_started api_key ledger t0).
  destruct (Tattoo.start _ _ _) as [s [msg|paths]]; simpl in H.
  - exists s. split; [exact H|]. by repeat split.
  - exists (Tattoo.loop paths s entries).
    split; [by apply tattoo_ok_loop|]. repeat split. simpl. apply written_flush.
Qed.

(** ** C1: the rate of classifications *)

Lemma paced_limited p : paced p -> limited p.
Proof.
  intros Hp. split; [|split].
  - intros w Hw. by apply paced_window.
  - intros c Hc. by destruct (paced_calls p Hp c Hc) as [_ H].
  - intros a. by apply paced_sliding.
Qed.

(** The three cases of the limiter: a minute or more since [minute_start]
    opens a new window with the count at zero; a full window makes the caller
    sleep until the window's minute is over and then opens a new one; else
    nothing changes. *)
Lemma throttle_cases p :
  requests_this_minute p <= 14 ->
  (minute <= clock p - minute_start p -> throttle p = (new_window p, []))
  /\ (clock p - minute_start p < minute -> requests_this_minute p = 14 ->
      throttle p = (new_window (elapse (minute - (clock p - minute_start p)) p),
                    [RateLimitWaiting (minute - (clock p - minute_start p))])
      /\ clock (throttle p).1 = minute_start p + minute)
  /\ (clock p - minute_start p < minute -> requests_this_minute p < 14 ->
      throttle p = (p, [])).
Proof.
  intros Hmax. unfold throttle. split; [|split].
  - intros Hover. rewrite (proj2 (Z.leb_le _ _) Hover). reflexivity.
  - intros Hopen Hfull. rewrite (proj2 (Z.leb_gt _ _) Hopen), Hfull. simpl. split; [done | lia].
  - intros Hopen Hroom.
    rewrite (proj2 (Z.leb_gt _ _) Hopen), (proj2 (Z.leb_gt _ _) Hroom). reflexivity.
Qed.

(** C1 (amended). In every run of either driver, finished or stopped after
    any number of turns, each window of the limiter holds at most 14
    classifications, every classification lies in one of these windows, and
    any minute holds at most 28; before each classification the limiter opens
    a new window when a minute has passed and sleeps out the window when the
    count has reached 14. *)
Theorem per_minute_limit rs api_key ledger entries t0 daily_limit sample_size k :
  limited (Photo.pace (Photo.process_folder rs api_key ledger entries t0 daily_limit sample_size))
  /\ limited (Photo.pace (Photo.interrupted rs k api_key ledger entries t0 daily_limit sample_size))
  /\ limited (Tattoo.pace (Tattoo.process_folder api_key ledger entries t0))
  /\ limited (Tattoo.pace (Tattoo.interrupted k api_key ledger entries t0))
  /\ (forall p, paced p ->
        paced (throttle p).1
        /\ requests_this_minute (throttle p).1 < 14
        /\ clock (throttle p).1 - minute_start (throttle p).1 < minute
        /\ (minute <= clock p - minute_start p -> throttle p = (new_window p, []))
        /\ (clock p - minute_start p < minute -> requests_this_minute p = 14 ->
            throttle p = (new_window (elapse (minute - (clock p - minute_start p)) p),
                          [RateLimitWaiting (minute - (clock p - minute_start p))])
            /\ clock (throttle p).1 = minute_start p + minute)
        /\ (clock p - minute_start p < minute -> requests_this_minute p < 14 ->
            throttle p = (p, []))).
Proof.
  split; [|split; [|split; [|split]]].
  - destruct (photo_process_folder_ok rs daily_limit api_key ledger entries t0 sample_size)
      as (s & Hok & -> & _).
    apply paced_limited, (photo_paced _ _ Hok).
  - apply paced_limited, (photo_paced daily_limit), photo_ok_interrupted.
  - destruct (tattoo_process_folder_ok api_key ledger entries t0) as (s & Hok & -> & _).
    apply paced_limited, (tattoo_paced _ Hok).
  - apply paced_limited, tattoo_paced, tattoo_ok_interrupted.
  - intros p Hp.
    destruct (paced_throttle p Hp) as (Hpaced & Hroom & Hopen & _).
    destruct (throttle_cases p (proj2 (paced_count p Hp))) as (Hreset & Hwait & Hpass).
    done.
Qed.

(** C1, as stated, fails: when the first answer takes 46 seconds, the
    thirteen classifications that end the first window and the fourteen that
    open the second all start within the minute that begins at second 47. *)
Lemma rate_safe_fails :
  ~ rate_safe (calls (Photo.pace
      (Photo.process_folder first_k (Some "key") None (burst 0 46000) 0 1000 None))).
Proof.
  intros H. specialize (H 47000). revert H. vm_compute. lia.
Qed.

Lemma per_minute_limit_witness :
  (calls_in 0 (0 + minute)
     (calls (Photo.pace
        (Photo.process_folder first_k (Some "key") None (burst 0 46000) 0 1000 None)))
   <= 14)%nat.
Proof.
  destruct (per_minute_limit first_k (Some "key") None (burst 0 46000) 0 1000 None 0)
    as ((Hwindow & _) & _).
  apply Hwindow. vm_compute. apply list_elem_of_further, list_elem_of_here.
Defined.

(** The bound of 28 is reached: after 46 seconds spent on the first
    fingerprint, a full window and the full window after it fit in the minute
    that begins at second 46. *)
Example sliding_bound_reached :
  calls_in 46000 (46000 + minute)
    (calls (Photo.pace
       (Photo.process_folder first_k (Some "key") None (burst 46000 0) 0 1000 None)))
  = 28%nat.
Proof. vm_compute. reflexivity. Qed.

(** ** C4: the daily cap *)

Lemma photo_loop_full limit hashes n s l :
  limit <= Photo.daily_requests s ->
  Photo.loop limit hashes n s l
  = if l is [] then s else Photo.print [DailyLimitReached limit] s.
Proof.
  intros Hfull. destruct l as [|e l]; simpl; [done|].
  by rewrite (proj2 (Z.leb_le _ _) Hfull).
Qed.

(** C4. A run of the photo driver starts at most [daily_limit]
    classifications; from a state in which [daily_requests] has reached the
    limit the loop does nothing but print that it stops, however many
    candidates remain; and a run that got past its setup ends by printing
    that processing is complete, not with an error. *)
Theorem daily_cap rs api_key ledger entries t0 daily_limit sample_size :
  let run := Photo.process_folder rs api_key ledger entries t0 daily_limit sample_size in
  Z.of_nat (length (calls (Photo.pace run))) <= Z.max 0 daily_limit
  /\ (forall hashes n s e rest,
        daily_limit <= Photo.daily_requests s ->
        Photo.loop daily_limit hashes n s (e :: rest)
        = Photo.print [DailyLimitReached daily_limit] s)
  /\ (forall s0 hashes all_images,
        Photo.start rs api_key ledger entries t0 sample_size
        = (s0, Returned (hashes, all_images)) ->
        last (Photo.console run) = Some (ProcessingComplete (Photo.total_processed run))).
Proof.
  cbv zeta. split; [|split].
  - destruct (photo_process_folder_ok rs daily_limit api_key ledger entries t0 sample_size)
      as (s & [H1 H2 H3 H4 H5 H6] & -> & _).
    lia.
  - intros hashes n s e rest Hfull. by rewrite photo_loop_full.
  - intros s0 hashes imgs Hstart. unfold Photo.process_folder. rewrite Hstart.
    simpl. by rewrite last_snoc.
Qed.

(** Three photographs and a limit of two. *)
Lemma daily_cap_witness :
  Photo.loop 2 ∅ 3
    (Photo.interrupted first_k 2 (Some "key") None (take 3 (burst 0 0)) 0 2 None)
    (drop 2 (take 3 (burst 0 0)))
  = Photo.print [DailyLimitReached 2]
      (Photo.interrupted first_k 2 (Some "key") None (take 3 (burst 0 0)) 0 2 None)
  /\ last (Photo.console
             (Photo.process_folder first_k (Some "key") None (take 3 (burst 0 0)) 0 2 None))
     = Some (ProcessingComplete 2).
Proof.
  destruct (daily_cap first_k (Some "key") None (take 3 (burst 0 0)) 0 2 None)
    as (_ & Hstop & Hend).
  split.
  - apply Hstop. vm_compute. discriminate.
  - erewrite Hend; [vm_compute; reflexivity | vm_compute; reflexivity].
Defined.

(** ** C6: what a crash leaves on disk *)

(** C6 (amended). The photo driver flushes the ledger whenever the number of
    rows it has appended is a multiple of ten: stopped dead after any number
    of turns, it has made durable as many of its rows as the largest multiple
    of ten below or at the number appended, so at least ten once eleven are
    appended.  (The tattoo driver does not flush while it runs.) *)
Theorem flush_every_ten rs k api_key ledger entries t0 daily_limit sample_size :
  let s := Photo.interrupted rs k api_key ledger entries t0 daily_limit sample_size in
  Photo.total_processed s = Z.of_nat (length (photo_rows (written (Photo.file s))))
  /\ Z.of_nat (length (photo_rows (durable (Photo.file s))))
     = 10 * (Photo.total_processed s / 10)
  /\ durable_after_eleven (Photo.total_processed s)
       (length (photo_rows (durable (Photo.file s))))
  /\ durable (Tattoo.file (Tattoo.interrupted k api_key ledger entries t0)) = [].
Proof.
  cbv zeta.
  destruct (photo_ok_interrupted rs k daily_limit api_key ledger entries t0 sample_size)
    as [H1 H2 H3 H4 H5 H6].
  repeat split.
  - rewrite H2, <- (length_fmap Photo.row_path), H5. by rewrite length_fmap.
  - done.
  - intros Heleven. Z.div_mod_to_equations. lia.
  - apply tattoo_durable, tattoo_ok_interrupted.
Qed.

(** C6, as stated, fails for the tattoo driver: of eleven photographs all
    eleven rows are appended, and none is on disk for certain when the
    process dies there. *)
Lemma tattoo_durability_fails :
  ~ (forall k api_key ledger entries t0,
       let s := Tattoo.interrupted k api_key ledger entries t0 in
       durable_after_eleven (Tattoo.total_processed s)
         (length (tattoo_rows (durable (Tattoo.file s))))).
Proof.
  intros H. specialize (H 11%nat (Some "key") None (take 11 (burst 0 0)) 0).
  revert H. vm_compute. intros H. specialize (H ltac:(discriminate)). lia.
Qed.

Lemma flush_every_ten_witness :
  (10 <= length (photo_rows (durable (Photo.file
           (Photo.interrupted first_k 11 (Some "key") None (burst 0 0) 0 1000 None)))))%nat.
Proof.
  destruct (flush_every_ten first_k 11 (Some "key") None (burst 0 0) 0 1000 None)
    as (_ & _ & Heleven & _).
  apply Heleven. vm_compute. discriminate.
Defined.

(** ** C10: images that are skipped *)

Lemma scan_skip paths l1 e l2 :
  e_path e ∈ paths -> Photo.scan paths (l1 ++ e :: l2) = Photo.scan paths (l1 ++ l2).
Proof.
  intros Hknown. unfold Photo.scan. rewrite !List.filter_app. simpl.
  rewrite bool_decide_eq_true_2 by done. by rewrite andb_false_r.
Qed.

(** C10. An image whose path is in the ledger never becomes a candidate: the
    run is the run without it.  For a candidate whose fingerprint is in the
    ledger the turn of the loop starts no classification, writes no row and
    leaves [requests_this_minute], [minute_start], [daily_requests] and
    [total_processed] as they are.  And in every run the three counters that
    only go up count the classifications: they equal the number of
    classifications started and of rows written. *)
Theorem skipped_image_frame rs api_key ledger entries t0 daily_limit sample_size :
  (forall l1 e l2,
     entries = l1 ++ e :: l2 ->
     e_path e ∈ (Photo.get_processed_images ledger).1.2 ->
     Photo.process_folder rs api_key ledger entries t0 daily_limit sample_size
     = Photo.process_folder rs api_key ledger (l1 ++ l2) t0 daily_limit sample_size)
  /\ (forall hashes n s e,
        is_Some (hashes !! (Photo.get_image_hash e).1) ->
        let s' := Photo.body hashes n s e in
        calls (Photo.pace s') = calls (Photo.pace s)
        /\ Photo.file s' = Photo.file s
        /\ requests_this_minute (Photo.pace s') = requests_this_minute (Photo.pace s)
        /\ minute_start (Photo.pace s') = minute_start (Photo.pace s)
        /\ Photo.daily_requests s' = Photo.daily_requests s
        /\ Photo.total_processed s' = Photo.total_processed s)
  /\ (let run := Photo.process_folder rs api_key ledger entries t0 daily_limit sample_size in
      Photo.total_processed run = Z.of_nat (length (calls (Photo.pace run)))
      /\ Photo.daily_requests run = Z.of_nat (length (calls (Photo.pace run)))
      /\ Photo.row_path <$> photo_rows (written (Photo.file run))
         = snd <$> calls (Photo.pace run)).
Proof.
  split; [|split].
  - intros l1 e l2 -> Hknown.
    unfold Photo.process_folder, Photo.start.
    destruct (setup_gemini api_key); [done|].
    destruct (Photo.get_processed_images ledger) as [[hashes paths] out]. simpl in Hknown.
    by rewrite scan_skip.
  - intros hashes n s e Hknown. cbv zeta. by rewrite photo_body_skip.
  - cbv zeta.
    destruct (photo_process_folder_ok rs daily_limit api_key ledger entries t0 sample_size)
      as (s & [H1 H2 H3 H4 H5 H6] & -> & -> & -> & ->).
    repeat split; [done | congruence | done].
Qed.

Lemma skipped_image_frame_witness :
  Photo.process_folder first_k (Some "key") recorded_ledger [original; renamed_copy] 0 1000 None
  = Photo.process_folder first_k (Some "key") recorded_ledger [renamed_copy] 0 1000 None
  /\ Photo.file (Photo.body (Photo.get_processed_images recorded_ledger).1.1 1
                   (Photo.initial 0) renamed_copy)
     = Photo.file (Photo.initial 0).
Proof.
  destruct (skipped_image_frame first_k (Some "key") recorded_ledger
              [original; renamed_copy] 0 1000 None) as (Hpath & Hhash & _).
  split.
  - apply (Hpath [] original [renamed_copy]); [reflexivity|].
    refine (bool_decide_unpack _ _). vm_compute. exact I.
  - apply Hhash. refine (bool_decide_unpack _ _). vm_compute. exact I.
Defined.

(** ** C2: parsing the answer *)

Lemma startswith_append p s : PyStr.startswith p (p +:+ s) = true.
Proof. induction p as [|a p IH]; simpl; [done|]. by rewrite Ascii.eqb_refl. Qed.

Lemma replace_from_skip old new s1 s2 :
  PyStr.replace_from (String.length s1) old new (s1 +:+ s2)
  = PyStr.replace_from 0 old new s2.
Proof.
  induction s1 as [|a s1 IH]; simpl; [|done].
  destruct s2; reflexivity.
Qed.

(** A label in front of a line is removed. *)
Lemma replace_label a label v :
  PyStr.replace (String a label +:+ v) (String a label) ""
  = PyStr.replace v (String a label) "".
Proof.
  unfold PyStr.replace. simpl PyStr.replace_from at 1.
  rewrite Ascii.eqb_refl, startswith_append. simpl.
  apply replace_from_skip.
Qed.

(** A line without the label is left as it is. *)
Lemma replace_absent a label v :
  PyStr.contains (String a label) v = false ->
  PyStr.replace v (String a label) "" = v.
Proof.
  unfold PyStr.replace.
  induction v as [|c v IH]; [done|].
  intros Hno. simpl in Hno. apply orb_false_elim in Hno as [Hhere Hlater].
  change (PyStr.replace_from 0 (String a label) "" (String c v))
    with (if PyStr.startswith (String a label) (String c v)
          then "" +:+ PyStr.replace_from (Nat.pred (String.length (String a label)))
                        (String a label) "" v
          else String c (PyStr.replace_from 0 (String a label) "" v)).
  simpl PyStr.startswith. rewrite Hhere. f_equal. by apply IH.
Qed.

(** But the label is removed wherever it stands in the line. *)
Example replace_inside :
  PyStr.replace "Category: a day of People: and places" "People: " ""
  = "Category: a day of and places".
Proof. reflexivity. Qed.

Lemma photo_parse_short text :
  (length (PyStr.split PyStr.newline (PyStr.strip text)) < 5)%nat ->
  Photo.parse_response text = Raised "list index out of range".
Proof.
  unfold Photo.parse_response.
  destruct (PyStr.split _ _) as [|l0 [|l1 [|l2 [|l3 [|l4 rest]]]]]; simpl; try done; lia.
Qed.

Lemma photo_parse_lines text l0 l1 l2 l3 l4 rest :
  PyStr.split PyStr.newline (PyStr.strip text) = l0 :: l1 :: l2 :: l3 :: l4 :: rest ->
  Photo.parse_response text
  = Returned (PyStr.strip (PyStr.replace l0 "Category: " ""),
              PyStr.strip (PyStr.replace l1 "Wedding: " ""),
              PyStr.strip (PyStr.replace l2 "People: " ""),
              PyStr.strip (PyStr.replace l3 "Location: " ""),
              PyStr.strip (PyStr.replace l4 "Description: " "")).
Proof. unfold Photo.parse_response. by intros ->. Qed.

Lemma tattoo_parse_short text :
  (length (PyStr.split PyStr.newline (PyStr.strip text)) < 3)%nat ->
  Tattoo.parse_response text = Raised "list index out of range".
Proof.
  unfold Tattoo.parse_response.
  destruct (PyStr.split _ _) as [|l0 [|l1 [|l2 rest]]]; simpl; try done; lia.
Qed.

Lemma tattoo_parse_lines text l0 l1 l2 rest :
  PyStr.split PyStr.newline (PyStr.strip text) = l0 :: l1 :: l2 :: rest ->
  Tattoo.parse_response text
  = Returned (PyStr.strip (PyStr.replace l0 "Primary: " ""),
              PyStr.strip (PyStr.replace l1 "Secondary: " ""),
              PyStr.strip (PyStr.replace l2 "Description: " "")).
Proof. unfold Tattoo.parse_response. by intros ->. Qed.

(** C2, as stated, fails: with its first two lines swapped the answer is not
    in the format, and is recorded with the wedding line as the category and
    the category line as the wedding. *)
Lemma strict_parsing_fails : ~ strict_parsing.
Proof.
  intros H.
  destruct (H (sample_entry "a.jpg" "pixels" (Returned swapped_reply)) swapped_reply
              eq_refl eq_refl eq_refl) as [msg Hmsg].
  vm_compute in Hmsg. discriminate Hmsg.
Qed.

Example swapped_reply_parsed :
  Photo.analyze_photo (sample_entry "a.jpg" "pixels" (Returned swapped_reply))
  = (("Wedding: N/A", "Category: Travel", "You", "Beach", "A walk on the beach"), []).
Proof. vm_compute. reflexivity. Qed.

Example preamble_reply_parsed :
  Photo.analyze_photo (sample_entry "a.jpg" "pixels" (Returned preamble_reply))
  = (("Here is the analysis:", "Category: Travel", "Wedding: N/A", "People: You",
      "Location: Beach"), []).
Proof. vm_compute. reflexivity. Qed.

Example beach_reply_parsed :
  Photo.analyze_photo (sample_entry "a.jpg" "pixels" (Returned beach_reply))
  = (("Travel", "N/A", "You", "Beach", "A walk on the beach"), []).
Proof. vm_compute. reflexivity. Qed.

(** C2 (amended). Both clients parse by position: line [i] of the stripped
    answer gives field [i], with every occurrence of the field's label
    deleted and the white space around the rest removed, so a label in front
    of a line that does not hold it again is a prefix taken off; lines beyond
    the expected number are ignored.  The only answer that gives the error
    record is one with fewer lines than fields. *)
Theorem parse_by_position e text :
  e_decode e = Returned tt -> e_reply e = Returned text ->
  let lines := PyStr.split PyStr.newline (PyStr.strip text) in
  ((length lines < 5)%nat ->
     Photo.analyze_photo e
     = (Photo.process_failed "list index out of range",
        [ErrorProcessing (e_path e) "list index out of range"]))
  /\ (forall l0 l1 l2 l3 l4 rest, lines = l0 :: l1 :: l2 :: l3 :: l4 :: rest ->
        Photo.analyze_photo e
        = ((PyStr.strip (PyStr.replace l0 "Category: " ""),
            PyStr.strip (PyStr.replace l1 "Wedding: " ""),
            PyStr.strip (PyStr.replace l2 "People: " ""),
            PyStr.strip (PyStr.replace l3 "Location: " ""),
            PyStr.strip (PyStr.replace l4 "Description: " "")), []))
  /\ ((length lines < 3)%nat ->
        Tattoo.analyze_tattoo e
        = (Tattoo.process_failed "list index out of range",
           [ErrorProcessing (e_path e) "list index out of range"]))
  /\ (forall l0 l1 l2 rest, lines = l0 :: l1 :: l2 :: rest ->
        Tattoo.analyze_tattoo e
        = ((PyStr.strip (PyStr.replace l0 "Primary: " ""),
            PyStr.strip (PyStr.replace l1 "Secondary: " ""),
            PyStr.strip (PyStr.replace l2 "Description: " "")), []))
  /\ (forall a label v,
        PyStr.replace (String a label +:+ v) (String a label) ""
        = PyStr.replace v (String a label) ""
        /\ (PyStr.contains (String a label) v = false ->
            PyStr.replace v (String a label) "" = v)).
Proof.
  intros Hdecode Hreply lines.
  unfold Photo.analyze_photo, Tattoo.analyze_tattoo, encode_image.
  rewrite Hdecode, Hreply. simpl.
  split; [|split; [|split; [|split]]].
  - intros Hshort. by rewrite photo_parse_short.
  - intros l0 l1 l2 l3 l4 rest Hlines. by erewrite photo_parse_lines.
  - intros Hshort. by rewrite tattoo_parse_short.
  - intros l0 l1 l2 rest Hlines. by erewrite tattoo_parse_lines.
  - intros a label v. split; [apply replace_label | apply replace_absent].
Qed.

Lemma parse_by_position_witness :
  Photo.analyze_photo (sample_entry "a.jpg" "pixels" (Returned "Category: Travel"))
  = (Photo.process_failed "list index out of range",
     [ErrorProcessing "a.jpg" "list index out of range"]).
Proof.
  destruct (parse_by_position (sample_entry "a.jpg" "pixels" (Returned "Category: Travel"))
              "Category: Travel" eq_refl eq_refl) as (Hshort & _).
  apply Hshort. vm_compute. lia.
Defined.

(** ** C5: failures become rows *)

Lemma analyze_photo_fails e description :
  fails e description ->
  (Photo.analyze_photo e).1 = ("Error", "N/A", "Unknown", "Unknown", description).
Proof.
  unfold Photo.analyze_photo, encode_image.
  intros [msg Hd | msg Hd Hr | text Hd Hr Hshort]; rewrite Hd; simpl; [done | |].
  - by rewrite Hr.
  - rewrite Hr. simpl. by rewrite photo_parse_short.
Qed.

(** C5. When the classification of a candidate fails, [analyze_photo] still
    returns: it gives the record of placeholders with the description of the
    failure.  The turn of the loop appends exactly one row with the image's
    path, its fingerprint (the path itself when the file cannot be read) and
    these placeholders, and the loop goes on with the next image. *)
Theorem failures_become_rows e description daily_limit hashes n s rest :
  fails e description ->
  Photo.daily_requests s < daily_limit ->
  hashes !! (Photo.get_image_hash e).1 = None ->
  let s' := Photo.body hashes n s e in
  (Photo.analyze_photo e).1 = ("Error", "N/A", "Unknown", "Unknown", description)
  /\ Photo.loop daily_limit hashes n s (e :: rest) = Photo.loop daily_limit hashes n s' rest
  /\ (exists date,
        written (Photo.file s')
        = written (Photo.file s)
          ++ [Photo.Row {| Photo.row_path := e_path e;
                           Photo.row_hash := (Photo.get_image_hash e).1;
                           Photo.row_attributes :=
                             ("Error", "N/A", "Unknown", "Unknown", description);
                           Photo.row_date := date |}])
  /\ (forall msg, e_bytes e = Raised msg -> (Photo.get_image_hash e).1 = e_path e)
  /\ Photo.total_processed s' = Photo.total_processed s + 1.
Proof.
  intros Hfails Hroom Hnew. cbv zeta.
  assert (Hattr := analyze_photo_fails e description Hfails).
  split; [done|]. split.
  { simpl. by rewrite (proj2 (Z.leb_gt _ _) Hroom). }
  rewrite photo_body_new by done. cbv zeta.
  set (s2 := Photo.print _ (Photo.with_pace (throttle _).1 _)).
  destruct (photo_classify_spec n (Photo.get_image_hash e).1 e s2)
    as (_ & Etotal & _ & Ewritten & _).
  split; [|split].
  - exists (clock (Photo.pace s2) + Z.of_N (e_call_ms e)).
    rewrite Ewritten. unfold photo_row_of. by rewrite Hattr.
  - intros msg Hbytes. unfold Photo.get_image_hash. by rewrite Hbytes.
  - by rewrite Etotal.
Qed.

Lemma failures_become_rows_witness :
  photo_rows (written (Photo.file (Photo.body ∅ 1 (Photo.initial 0) broken_entry)))
  = [{| Photo.row_path := "broken.jpg"; Photo.row_hash := "broken.jpg";
        Photo.row_attributes := Photo.load_failed; Photo.row_date := 0 |}].
Proof.
  destruct (failures_become_rows broken_entry "Failed to load image" 1000 ∅ 1
              (Photo.initial 0) []
              (decode_failure broken_entry "cannot identify image file" eq_refl)
              ltac:(reflexivity) ltac:(reflexivity))
    as (_ & _ & (date & Hrow) & _).
  rewrite Hrow. vm_compute. 
  assert (Hdate : date = 0).
  { vm_compute in Hrow. by injection Hrow. }
  by rewrite Hdate.
Defined.

(** The scenario of the specification: [b.jpg] is a copy of a recorded
    image, [c.jpg] is classified, [d.jpg] cannot be decoded; two rows are
    added, one of them with the placeholders. *)
Example three_images :
  photo_rows (written (Photo.file
    (Photo.process_folder first_k (Some "key") recorded_ledger
       [renamed_copy; birthday_entry; undecodable_entry] 0 1000 None)))
  = [{| Photo.row_path := "c.jpg";
        Photo.row_hash := "44de7ee7e8df52d16dacc12f508aed2c";
        Photo.row_attributes := ("Birthday", "N/A", "Family", "Indoors", "A cake");
        Photo.row_date := 0 |};
     {| Photo.row_path := "d.jpg";
        Photo.row_hash := "aaddc3454ccbefbb2d8d8461f8f7f481";
        Photo.row_attributes := Photo.load_failed;
        Photo.row_date := 1000 |}].
Proof. vm_compute. reflexivity. Qed.

(** ** C8: reading the ledger back *)

Lemma elem_of_strings_of (cells : list (option string)) (x : string) :
  x ∈ strings_of cells <-> Some x ∈ cells.
Proof.
  unfold strings_of. rewrite list_elem_of_omap. split.
  - intros (c & Hc & Heq). simpl in Heq. by subst.
  - intros Hc. by exists (Some x).
Qed.

Lemma hash_dict_of_spec cells h :
  is_Some (Photo.hash_dict_of cells !! h) <-> Some h ∈ cells.
Proof.
  unfold Photo.hash_dict_of. rewrite <- elem_of_strings_of. split.
  - intros [b Hb]. apply elem_of_list_to_map_2 in Hb.
    apply list_elem_of_fmap in Hb as (h' & [= -> _] & Hh'). done.
  - intros Hh.
    destruct (list_to_map _ !! h) as [b|] eqn:Hlookup; [by eexists|].
    apply not_elem_of_list_to_map_2 in Hlookup. exfalso. apply Hlookup.
    apply list_elem_of_fmap. exists (h, true). split; [done|].
    apply list_elem_of_fmap. by exists h.
Qed.

Lemma path_set_of_spec cells p : p ∈ path_set_of cells <-> Some p ∈ cells.
Proof. unfold path_set_of. by rewrite elem_of_list_to_set, elem_of_strings_of. Qed.

Lemma cells_by_row_column df name cells :
  column df name = Returned cells -> cells_by_row df name = Returned cells.
Proof.
  unfold cells_by_row, column.
  destruct (records df) eqn:Hrec; [|done].
  destruct (index_of name (columns df)); [|done]. by intros [= <-].
Qed.

Lemma photo_same_print out1 out2 s1 s2 :
  photo_same s1 s2 -> photo_same (Photo.print out1 s1) (Photo.print out2 s2).
Proof. by intros (? & ? & ? & ?). Qed.

Lemma photo_same_body hashes n s1 s2 e :
  photo_same s1 s2 -> photo_same (Photo.body hashes n s1 e) (Photo.body hashes n s2 e).
Proof.
  intros (Hp & Ht & Hd & Hw).
  destruct (hashes !! (Photo.get_image_hash e).1) as [b|] eqn:Hh.
  - rewrite !photo_body_skip by (rewrite Hh; eauto).
    unfold photo_same. simpl. by rewrite Hp.
  - rewrite !photo_body_new by done. cbv zeta.
    set (a1 := Photo.print _ (Photo.with_pace (throttle _).1 _)).
    set (a2 := Photo.print _ (Photo.with_pace (throttle _).1 _)).
    assert (Ha : photo_same a1 a2).
    { unfold photo_same, a1, a2. simpl. by rewrite Hp. }
    clearbody a1 a2. destruct Ha as (Hp' & Ht' & Hd' & Hw').
    destruct (photo_classify_spec n (Photo.get_image_hash e).1 e a1)
      as (E1 & E2 & E3 & E4 & _).
    destruct (photo_classify_spec n (Photo.get_image_hash e).1 e a2)
      as (F1 & F2 & F3 & F4 & _).
    unfold photo_same.
    rewrite E1, E2, E3, E4, F1, F2, F3, F4, !photo_rows_app, Hp', Ht', Hd', Hw'.
    unfold photo_row_of. by rewrite Hp'.
Qed.

Lemma photo_same_loop limit hashes n l s1 s2 :
  photo_same s1 s2 ->
  photo_same (Photo.loop limit hashes n s1 l) (Photo.loop limit hashes n s2 l).
Proof.
  revert s1 s2. induction l as [|e l IH]; intros s1 s2 Hsame; simpl; [done|].
  destruct Hsame as (Hp & Ht & Hd & Hw). rewrite Hd.
  destruct (limit <=? Photo.daily_requests s2); [done|].
  by apply IH, photo_same_body.
Qed.

Lemma tattoo_same_body paths s1 s2 e :
  tattoo_same s1 s2 -> tattoo_same (Tattoo.body paths s1 e) (Tattoo.body paths s2 e).
Proof.
  intros (Hp & Ht & Hw).
  destruct (tattoo_new paths e) eqn:Hnew.
  - rewrite !tattoo_body_new by done. cbv zeta.
    set (a1 := Tattoo.print _ (Tattoo.with_pace (throttle _).1 _)).
    set (a2 := Tattoo.print _ (Tattoo.with_pace (throttle _).1 _)).
    assert (Ha : tattoo_same a1 a2).
    { unfold tattoo_same, a1, a2. simpl. by rewrite Hp. }
    clearbody a1 a2. destruct Ha as (Hp' & Ht' & Hw').
    destruct (tattoo_classify_spec e a1) as (E1 & E2 & E3 & E4).
    destruct (tattoo_classify_spec e a2) as (F1 & F2 & F3 & F4).
    unfold tattoo_same, written in *.
    rewrite E1, E2, E3, E4, F1, F2, F3, F4, !app_assoc.
    rewrite !(tattoo_rows_app (_ ++ _) [_]), Hp', Ht', Hw'.
    unfold tattoo_row_of. by rewrite Hp'.
  - rewrite !tattoo_body_old by done. by destruct (is_image e).
Qed.

Lemma tattoo_same_loop paths l s1 s2 :
  tattoo_same s1 s2 -> tattoo_same (Tattoo.loop paths s1 l) (Tattoo.loop paths s2 l).
Proof.
  unfold Tattoo.loop. revert s1 s2.
  induction l as [|e l IH]; intros s1 s2 Hsame; simpl; [done|].
  by apply IH, tattoo_same_body.
Qed.

(** C8. When there is no ledger file both readers return empty sets and
    print nothing.  When the file is read and has its columns, the photo
    reader returns the strings of the [Image Hash] column as the keys of a
    dictionary and the strings of the [Image Path] column as a set, the
    tattoo reader the latter.  When reading raises, or a column is missing,
    they print the error and return empty sets, and the run that follows
    makes the classifications and writes the rows of a run without a
    ledger. *)
Theorem ledger_reader_contract :
  Photo.get_processed_images None = (∅, ∅, [])
  /\ Tattoo.get_processed_images None = (∅, [])
  /\ (forall df hashes paths,
        column df "Image Hash" = Returned hashes ->
        column df "Image Path" = Returned paths ->
        exists hash_dict path_set,
          Photo.get_processed_images (Some (Returned df)) = (hash_dict, path_set, [])
          /\ (forall h, is_Some (hash_dict !! h) <-> Some h ∈ hashes)
          /\ (forall p, p ∈ path_set <-> Some p ∈ paths))
  /\ (forall df paths,
        column df "Image Path" = Returned paths ->
        exists path_set,
          Tattoo.get_processed_images (Some (Returned df)) = (path_set, [])
          /\ (forall p, p ∈ path_set <-> Some p ∈ paths))
  /\ (forall msg,
        Photo.get_processed_images (Some (Raised msg)) = (∅, ∅, [ErrorReadingCsv msg])
        /\ Tattoo.get_processed_images (Some (Raised msg)) = (∅, [ErrorReadingCsv msg]))
  /\ (forall df msg,
        column df "Image Path" = Raised msg ->
        (exists msg',
           Photo.get_processed_images (Some (Returned df)) = (∅, ∅, [ErrorReadingCsv msg']))
        /\ Tattoo.get_processed_images (Some (Returned df)) = (∅, [ErrorReadingCsv msg]))
  /\ (forall df msg,
        records df <> [] -> column df "Image Hash" = Raised msg ->
        Photo.get_processed_images (Some (Returned df)) = (∅, ∅, [ErrorReadingCsv msg]))
  /\ (forall rs api_key entries t0 daily_limit sample_size msg,
        photo_same
          (Photo.process_folder rs api_key (Some (Raised msg)) entries t0 daily_limit sample_size)
          (Photo.process_folder rs api_key None entries t0 daily_limit sample_size)
        /\ tattoo_same
             (Tattoo.process_folder api_key (Some (Raised msg)) entries t0)
             (Tattoo.process_folder api_key None entries t0)).
Proof.
  split; [done|]. split; [done|].
  split; [|split; [|split; [done|split; [|split]]]].
  - intros df hashes paths Hhashes Hpaths.
    exists (Photo.hash_dict_of hashes), (path_set_of paths).
    unfold Photo.get_processed_images. simpl.
    rewrite (cells_by_row_column _ _ _ Hhashes), Hpaths. simpl.
    split; [done|]. split; [apply hash_dict_of_spec | apply path_set_of_spec].
  - intros df paths Hpaths. exists (path_set_of paths).
    unfold Tattoo.get_processed_images. simpl. rewrite Hpaths. simpl.
    split; [done | apply path_set_of_spec].
  - intros df msg Hpaths.
    unfold Photo.get_processed_images, Tattoo.get_processed_images. simpl.
    rewrite Hpaths. simpl. split; [|done].
    destruct (cells_by_row df "Image Hash") as [msg'|hashes]; simpl; by eexists.
  - intros df msg Hrows Hhashes.
    unfold Photo.get_processed_images, cells_by_row. simpl.
    destruct (records df); [done|]. by rewrite Hhashes.
  - intros rs api_key entries t0 daily_limit sample_size msg. split.
    + unfold Photo.process_folder, Photo.start.
      destruct (setup_gemini api_key); [done|]. simpl.
      destruct (Photo.sample rs sample_size _) as [out [msg'|imgs]]; [done|].
      simpl. unfold Photo.close.
      set (a1 := Photo.print out _). set (a2 := Photo.print out _).
      assert (Ha : photo_same a1 a2) by done.
      clearbody a1 a2.
      destruct (photo_same_loop daily_limit ∅ (length imgs) imgs a1 a2 Ha)
        as (Hp & Ht & Hd & Hw).
      unfold photo_same. simpl. rewrite !written_flush. simpl. done.
    + unfold Tattoo.process_folder, Tattoo.start.
      destruct (setup_gemini api_key); [done|]. simpl. unfold Tattoo.close.
      match goal with
      | |- tattoo_same (Tattoo.with_file _ (Tattoo.print _ (Tattoo.loop _ ?a1 _)))
                       (Tattoo.with_file _ (Tattoo.print _ (Tattoo.loop _ ?a2 _))) =>
          destruct (tattoo_same_loop ∅ entries a1 a2) as (Hp & Ht & Hw); [done|]
      end.
      unfold tattoo_same. simpl. rewrite !written_flush. simpl. done.
Qed.

Lemma ledger_reader_contract_witness :
  "a.jpg" ∈ (Photo.get_processed_images recorded_ledger).1.2.
Proof.
  destruct ledger_reader_contract as (_ & _ & Hparsed & _).
  destruct (Hparsed (photo_ledger [("a.jpg", MD5.hexdigest (list_byte_of_string "pixels"))])
              _ _ eq_refl eq_refl) as (hash_dict & path_set & Heq & _ & Hpaths).
  unfold recorded_ledger. rewrite Heq. simpl. apply Hpaths. apply list_elem_of_here.
Defined.

(** ** C3: the two pipelines side by side *)






Example tattoo_copy_row :
  tattoo_rows (written (Tattoo.file
    (Tattoo.process_folder (Some "key") (Some (Returned (tattoo_ledger ["a.jpg"])))
       [tattoo_original; tattoo_copy] 0)))
  = [{| Tattoo.row_path := "b.jpg";
        Tattoo.row_attributes := ("Traditional", "Neo-traditional", "A swallow");
        Tattoo.row_date := 0 |}].
Proof. vm_compute. reflexivity. Qed.



(** ** C9: the summary *)

Example party_summary :
  (Photo.analyze_results {["photo_analysis.csv" := Photo.Csv (Returned party_ledger)]}
     "photo_analysis.csv").1 !! "photo_analysis_analysis.csv"
  = Some (Photo.Analysis [("Wedding", 3, 75%float); ("Birthday", 1, 25%float)]).
Proof. vm_compute. reflexivity. Qed.

Example party_ledger_kept :
  (Photo.analyze_results {["photo_analysis.csv" := Photo.Csv (Returned party_ledger)]}
     "photo_analysis.csv").1 !! "photo_analysis.csv"
  = Some (Photo.Csv (Returned party_ledger)).
Proof. vm_compute. reflexivity. Qed.

(** C9, at a ledger that is not named [.csv]: the name of the analysis is
    the name of the ledger, and the analysis takes the ledger's place. *)
Theorem analysis_overwrites_ledger :
  Photo.analysis_file "results.txt" = "results.txt"
  /\ (Photo.analyze_results {["results.txt" := Photo.Csv (Returned party_ledger)]}
        "results.txt").1 !! "results.txt"
     = Some (Photo.Analysis [("Wedding", 3, 75%float); ("Birthday", 1, 25%float)]).
Proof. split; vm_compute; reflexivity. Qed.

(** A directory that has [.csv] in its name is renamed in the result too. *)
Example analysis_file_directory :
  Photo.analysis_file "runs.csv.d/photos.csv" = "runs_analysis.csv.d/photos_analysis.csv".
Proof. reflexivity. Qed.








(** What is right about the name: a ledger named [stem.csv], with no other
    [.csv] in its path, has its analysis in [stem_analysis.csv]. *)
Lemma append_cons c s t : String c s +:+ t = String c (s +:+ t).
Proof. reflexivity. Qed.

Lemma csv_no_straddle s :
  s <> "" -> PyStr.startswith ".csv" s = false ->
  PyStr.startswith ".csv" (s +:+ ".csv") = false.
Proof.
  destruct s as [|c1 [|c2 [|c3 [|c4 s]]]]; [done|..]; intros _;
    rewrite !append_cons; change ("" +:+ ".csv") with ".csv";
    cbn [PyStr.startswith];
    repeat match goal with
           | |- context [Ascii.eqb ?a ?b] =>
               destruct (Ascii.eqb_spec a b); cbn [andb]; try done
           end.
Qed.

Lemma analysis_file_csv stem :
  PyStr.contains ".csv" stem = false ->
  Photo.analysis_file (stem +:+ ".csv") = stem +:+ "_analysis.csv".
Proof.
  unfold Photo.analysis_file, PyStr.replace.
  induction stem as [|c stem IH]; [done|].
  intros Hno. cbn [PyStr.contains] in Hno. apply orb_false_elim in Hno as [Hhere Hlater].
  change (PyStr.replace_from 0 ".csv" "_analysis.csv" (String c stem +:+ ".csv"))
    with (if PyStr.startswith ".csv" (String c stem +:+ ".csv")
          then "_analysis.csv" +:+ PyStr.replace_from 3 ".csv" "_analysis.csv" (stem +:+ ".csv")
          else String c (PyStr.replace_from 0 ".csv" "_analysis.csv" (stem +:+ ".csv"))).
  rewrite csv_no_straddle by done. rewrite append_cons. f_equal. by apply IH.
Qed.

Lemma append_inj s a b : s +:+ a = s +:+ b -> a = b.
Proof. induction s as [|c s IH]; simpl; [done|]. intros [= H]. by apply IH. Qed.

(** For such a ledger the analysis is a new file with one row for each
    category, and every other file, the ledger among them, is as it was. *)
Lemma summary_of_csv_ledger fs stem df categories weddings :
  PyStr.contains ".csv" stem = false ->
  fs !! (stem +:+ ".csv") = Some (Photo.Csv (Returned df)) ->
  column df "Category" = Returned categories ->
  column df "Wedding" = Returned weddings ->
  let fs' := (Photo.analyze_results fs (stem +:+ ".csv")).1 in
  fs' !! (stem +:+ "_analysis.csv")
  = Some (Photo.Analysis
            ((fun '(category, n) =>
                (category, n, Photo.round1 (Photo.percent n (length (records df)))))
             <$> Photo.value_counts categories))
  /\ (forall path, path <> stem +:+ "_analysis.csv" -> fs' !! path = fs !! path)
  /\ fs' !! (stem +:+ ".csv") = Some (Photo.Csv (Returned df)).
Proof.
  intros Hstem Hfile Hcat Hwed. cbv zeta.
  unfold Photo.analyze_results. rewrite Hfile. simpl.
  rewrite Hcat. simpl. rewrite Hwed. simpl.
  rewrite analysis_file_csv by done.
  split; [by rewrite lookup_insert_eq|]. split.
  - intros path Hne. by rewrite lookup_insert_ne.
  - rewrite lookup_insert_ne; [done|].
    intros Heq. by apply append_inj in Heq.
Qed.

(** Two categories that are equally frequent. *)
Example value_counts_tie :
  Photo.value_counts [Some "Travel"; Some "Pets"; None; Some "Pets"; Some "Travel"; Some "Food"]
  = [("Travel", 2); ("Pets", 2); ("Food", 1)].
Proof. reflexivity. Qed.

(** * Further properties *)

(** ** Which images a run classifies *)

(** The photo loop classifies the candidates whose fingerprint is new, in
    order, until the daily limit is used up, and writes for each of them its
    path, its fingerprint and what [analyze_photo] returned. *)
Lemma photo_loop_rows limit hashes n imgs s :
  let done := take (Z.to_nat (limit - Photo.daily_requests s))
                (List.filter (photo_fresh hashes) imgs) in
  let s' := Photo.loop limit hashes n s imgs in
  photo_row_core <$> photo_rows (written (Photo.file s'))
  = (photo_row_core <$> photo_rows (written (Photo.file s))) ++ (photo_entry_core <$> done)
  /\ snd <$> calls (Photo.pace s') = (snd <$> calls (Photo.pace s)) ++ (e_path <$> done)
  /\ Photo.daily_requests s' = Photo.daily_requests s + Z.of_nat (length done).
Proof.
  cbv zeta. revert s. induction imgs as [|e imgs IH]; intros s.
  { simpl. rewrite take_nil, !app_nil_r. simpl. repeat split; lia. }
  simpl Photo.loop. destruct (limit <=? Photo.daily_requests s) eqn:Hfull.
  { apply Z.leb_le in Hfull.
    replace (Z.to_nat (limit - Photo.daily_requests s)) with O by lia.
    simpl. rewrite !app_nil_r. repeat split; lia. }
  apply Z.leb_gt in Hfull.
  simpl List.filter.
  destruct (hashes !! (Photo.get_image_hash e).1) as [b|] eqn:Hh.
  - assert (Hf : photo_fresh hashes e = false).
    { unfold photo_fresh. rewrite Hh. by rewrite bool_decide_eq_true_2 by eauto. }
    rewrite Hf, photo_body_skip by (rewrite Hh; eauto).
    exact (IH _).
  - assert (Hf : photo_fresh hashes e = true).
    { unfold photo_fresh. rewrite Hh. by rewrite bool_decide_eq_false_2 by (by intros [? ?]). }
    rewrite Hf.
    replace (Z.to_nat (limit - Photo.daily_requests s))
      with (S (Z.to_nat (limit - (Photo.daily_requests s + 1)))) by lia.
    rewrite firstn_cons.
    rewrite photo_body_new by done. cbv zeta.
    set (s2 := Photo.print _ (Photo.with_pace (throttle _).1 _)).
    assert (E2 : calls (Photo.pace s2) = calls (Photo.pace s)
                 /\ Photo.daily_requests s2 = Photo.daily_requests s
                 /\ Photo.file s2 = Photo.file s).
    { unfold s2. simpl. repeat split. unfold throttle. repeat case_match; reflexivity. }
    clearbody s2. destruct E2 as (Ec & Ed & Ef).
    destruct (photo_classify_spec n (Photo.get_image_hash e).1 e s2)
      as (Epace & _ & Edaily & Ewritten & _).
    destruct (IH (Photo.classify n (Photo.get_image_hash e).1 e s2)) as (IH1 & IH2 & IH3).
    rewrite Edaily, Ed in IH1, IH2, IH3.
    rewrite IH1, IH2, IH3, Ewritten, Epace, Ef.
    change (calls (elapse second (count_request (elapse (Z.of_N (e_call_ms e))
                     (classify_now (e_path e) (Photo.pace s2))))))
      with (calls (Photo.pace s2) ++ [(clock (Photo.pace s2), e_path e)]).
    rewrite Ec, photo_rows_app, !fmap_app, <- !app_assoc.
    split; [reflexivity|]. split; [reflexivity|]. simpl length. lia.
Qed.

(** Before the loop nothing is counted, no classification has started and
    the file holds at most its header. *)
Lemma photo_start_state rs api_key ledger entries t0 sample_size :
  let s := (Photo.start rs api_key ledger entries t0 sample_size).1 in
  Photo.pace s = start_pacing t0
  /\ Photo.total_processed s = 0
  /\ Photo.daily_requests s = 0
  /\ written (Photo.file s) = if ledger is None
                              then (if setup_gemini api_key is Returned _
                                    then [Photo.Header] else [])
                              else [].
Proof.
  cbv zeta. unfold Photo.start.
  destruct (setup_gemini api_key) as [msg|model]; simpl.
  { by destruct ledger. }
  destruct (Photo.get_processed_images ledger) as [[hashes paths] out].
  destruct (Photo.sample rs sample_size _) as [out' [msg|imgs]]; destruct ledger; done.
Qed.

(** What [start] hands to the loop when the key is set and no sample is
    asked for: the index of the ledger and the scanned candidates. *)
Lemma photo_start_all rs api_key ledger entries t0 :
  setup_gemini api_key = Returned tt ->
  (Photo.start rs api_key ledger entries t0 None).2
  = Returned ((Photo.get_processed_images ledger).1.1,
              Photo.scan (Photo.get_processed_images ledger).1.2 entries).
Proof.
  intros Hkey. unfold Photo.start. rewrite Hkey.
  by destruct (Photo.get_processed_images ledger) as [[hashes paths] out].
Qed.

(** X1. A photo run with a key and without sampling classifies, in the
    order of the scan, the images with a known extension whose path and
    whose fingerprint are both missing from the ledger, as many of them as
    the daily limit allows, and writes one row for each: its path, its
    fingerprint and what [analyze_photo] returned for it.  The index is the
    one read before the loop: an image that is in the folder twice is
    classified twice. *)
Theorem photo_run_rows rs api_key ledger entries t0 daily_limit :
  setup_gemini api_key = Returned tt ->
  let hashes := (Photo.get_processed_images ledger).1.1 in
  let paths := (Photo.get_processed_images ledger).1.2 in
  let done := take (Z.to_nat daily_limit)
                (List.filter (photo_fresh hashes) (Photo.scan paths entries)) in
  let run := Photo.process_folder rs api_key ledger entries t0 daily_limit None in
  photo_row_core <$> photo_rows (written (Photo.file run)) = photo_entry_core <$> done
  /\ snd <$> calls (Photo.pace run) = e_path <$> done
  /\ Photo.daily_requests run = Z.of_nat (length done).
Proof.
  intros Hkey. cbv zeta.
  assert (Hstart := photo_start_all rs api_key ledger entries t0 Hkey).
  destruct (photo_start_state rs api_key ledger entries t0 None) as (Hp & _ & Hd & Hw).
  unfold Photo.process_folder.
  destruct (Photo.start rs api_key ledger entries t0 None) as [s r].
  simpl in Hstart, Hp, Hd, Hw. subst r.
  destruct (photo_loop_rows daily_limit (Photo.get_processed_images ledger).1.1
              (length (Photo.scan (Photo.get_processed_images ledger).1.2 entries))
              (Photo.scan (Photo.get_processed_images ledger).1.2 entries) s)
    as (H1 & H2 & H3).
  rewrite Hd, Hp, Hw, Z.sub_0_r in *. simpl. rewrite written_flush. simpl.
  rewrite H1, H2, H3. rewrite Hkey.
  by destruct ledger.
Qed.

Lemma photo_run_rows_witness :
  photo_row_core <$> photo_rows (written (Photo.file
    (Photo.process_folder first_k (Some "key") recorded_ledger
       [renamed_copy; birthday_entry; birthday_entry; undecodable_entry] 0 2 None)))
  = [photo_entry_core birthday_entry; photo_entry_core birthday_entry].
Proof.
  destruct (photo_run_rows first_k (Some "key") recorded_ledger
              [renamed_copy; birthday_entry; birthday_entry; undecodable_entry] 0 2
              eq_refl) as (Hrows & _).
  rewrite Hrows. vm_compute. reflexivity.
Defined.

Lemma tattoo_loop_rows paths entries s :
  let done := List.filter (tattoo_new paths) entries in
  let s' := Tattoo.loop paths s entries in
  tattoo_row_core <$> tattoo_rows (written (Tattoo.file s'))
  = (tattoo_row_core <$> tattoo_rows (written (Tattoo.file s))) ++ (tattoo_entry_core <$> done)
  /\ snd <$> calls (Tattoo.pace s') = (snd <$> calls (Tattoo.pace s)) ++ (e_path <$> done)
  /\ Tattoo.total_processed s' = Tattoo.total_processed s + Z.of_nat (length done).
Proof.
  cbv zeta. unfold Tattoo.loop. revert s. induction entries as [|e entries IH]; intros s.
  { simpl. rewrite !app_nil_r. repeat split; lia. }
  simpl fold_left. simpl List.filter.
  destruct (tattoo_new paths e) eqn:Hnew.
  - rewrite tattoo_body_new by done. cbv zeta.
    set (s2 := Tattoo.print _ (Tattoo.with_pace (throttle _).1 _)).
    assert (E2 : calls (Tattoo.pace s2) = calls (Tattoo.pace s)
                 /\ Tattoo.total_processed s2 = Tattoo.total_processed s
                 /\ Tattoo.file s2 = Tattoo.file s).
    { unfold s2. simpl. repeat split. unfold throttle. repeat case_match; reflexivity. }
    clearbody s2. destruct E2 as (Ec & Et & Ef).
    destruct (tattoo_classify_spec e s2) as (Epace & Etotal & Epending & Edurable).
    destruct (IH (Tattoo.classify e s2)) as (IH1 & IH2 & IH3).
    rewrite IH1, IH2, IH3, Etotal, Epace, Et.
    unfold written. rewrite Epending, Edurable, Ef.
    change (calls (elapse second (count_request (elapse (Z.of_N (e_call_ms e))
                     (classify_now (e_path e) (Tattoo.pace s2))))))
      with (calls (Tattoo.pace s2) ++ [(clock (Tattoo.pace s2), e_path e)]).
    rewrite Ec, app_assoc, tattoo_rows_app, !fmap_app, <- !app_assoc.
    split; [reflexivity|]. split; [reflexivity|]. simpl length. lia.
  - rewrite tattoo_body_old by done.
    destruct (IH (if is_image e then Tattoo.print [SkippingByPath (e_path e)] s else s))
      as (IH1 & IH2 & IH3).
    rewrite IH1, IH2, IH3. by destruct (is_image e).
Qed.

(** X2. A tattoo run with a key classifies every entry of the folder that
    has a known extension and whose path is not in the ledger, in the order
    of the folder and without any cap, and writes one row for each: its path
    and what [analyze_tattoo] returned for it. *)
Theorem tattoo_run_rows api_key ledger entries t0 :
  setup_gemini api_key = Returned tt ->
  let done := List.filter (tattoo_new (Tattoo.get_processed_images ledger).1) entries in
  let run := Tattoo.process_folder api_key ledger entries t0 in
  tattoo_row_core <$> tattoo_rows (written (Tattoo.file run)) = tattoo_entry_core <$> done
  /\ snd <$> calls (Tattoo.pace run) = e_path <$> done
  /\ Tattoo.total_processed run = Z.of_nat (length done).
Proof.
  intros Hkey. cbv zeta.
  unfold Tattoo.process_folder, Tattoo.start. rewrite Hkey.
  destruct (Tattoo.get_processed_images ledger) as [paths out]. simpl.
  rewrite written_flush. simpl.
  match goal with
  | |- context [Tattoo.loop paths ?s entries] =>
      destruct (tattoo_loop_rows paths entries s) as (H1 & H2 & H3);
      rewrite H1, H2, H3
  end.
  by destruct ledger.
Qed.

Lemma tattoo_run_rows_witness :
  snd <$> calls (Tattoo.pace
    (Tattoo.process_folder (Some "key") (Some (Returned (tattoo_ledger ["a.jpg"])))
       [tattoo_original; tattoo_copy; tattoo_copy] 0))
  = ["b.jpg"; "b.jpg"].
Proof.
  destruct (tattoo_run_rows (Some "key") (Some (Returned (tattoo_ledger ["a.jpg"])))
              [tattoo_original; tattoo_copy; tattoo_copy] 0 eq_refl) as (_ & Hcalls & _).
  rewrite Hcalls. vm_compute. reflexivity.
Defined.

(** ** Runs that end early, and the lines of the file *)

(** X3. A run without a key stops before anything is opened: nothing is
    written, not even the header, and nothing is classified.  A photo run
    that is asked for a sample of negative size stops when it draws the
    sample: by then the file is open, so a new ledger is left with its header
    alone.  Every other run ends by reporting that processing is complete. *)
Theorem runs_that_stop_early rs api_key ledger entries t0 daily_limit sample_size :
  let photo := Photo.process_folder rs api_key ledger entries t0 daily_limit sample_size in
  let tattoo := Tattoo.process_folder api_key ledger entries t0 in
  (forall msg, setup_gemini api_key = Raised msg ->
     photo = Photo.print [SettingUp; ErrorOccurred msg] (Photo.initial t0)
     /\ tattoo = Tattoo.print [SettingUp; ErrorOccurred msg] (Tattoo.initial t0))
  /\ (forall k, setup_gemini api_key = Returned tt -> sample_size = Some k -> k < 0 ->
        calls (Photo.pace photo) = []
        /\ durable (Photo.file photo) = (if ledger is None then [Photo.Header] else [])
        /\ pending (Photo.file photo) = []
        /\ exists before,
             Photo.console photo
             = before ++ [TakingSample k;
                          ErrorOccurred "Sample larger than population or is negative"])
  /\ (setup_gemini api_key = Returned tt ->
      (forall k, sample_size = Some k -> 0 <= k) ->
      last (Photo.console photo) = Some (ProcessingComplete (Photo.total_processed photo))
      /\ last (Tattoo.console tattoo) = Some (ProcessingComplete (Tattoo.total_processed tattoo))).
Proof.
  cbv zeta. split; [|split].
  - intros msg Hkey.
    unfold Photo.process_folder, Photo.start, Tattoo.process_folder, Tattoo.start.
    by rewrite Hkey.
  - intros k Hkey -> Hneg.
    unfold Photo.process_folder, Photo.start. rewrite Hkey.
    destruct (Photo.get_processed_images ledger) as [[hashes paths] out].
    unfold Photo.sample.
    rewrite (proj2 (Z.ltb_lt _ _)) by lia. rewrite (proj2 (Z.ltb_lt _ _) Hneg).
    destruct ledger; simpl; (split; [done|]; split; [done|]; split; [done|]);
      exists (SettingUp :: SetupSuccessful
              :: (out ++ [FoundProcessed (size hashes)])
                 ++ [Scanning; FoundNew (length (Photo.scan paths entries))]);
      simpl; by rewrite <- !app_assoc.
  - intros Hkey Hsize. split.
    + unfold Photo.process_folder, Photo.start. rewrite Hkey.
      destruct (Photo.get_processed_images ledger) as [[hashes paths] out].
      unfold Photo.sample.
      destruct sample_size as [k|].
      * specialize (Hsize k eq_refl).
        rewrite (proj2 (Z.ltb_ge _ _) Hsize).
        destruct (k <? _); simpl; by rewrite last_snoc.
      * simpl. by rewrite last_snoc.
    + unfold Tattoo.process_folder, Tattoo.start. rewrite Hkey.
      destruct (Tattoo.get_processed_images ledger) as [paths out].
      simpl. by rewrite last_snoc.
Qed.

Lemma runs_that_stop_early_witness :
  durable (Photo.file
    (Photo.process_folder first_k (Some "key") None [original] 0 1000 (Some (-1))))
  = [Photo.Header]
  /\ Photo.file (Photo.process_folder first_k None None [original] 0 1000 None) = opened.
Proof.
  destruct (runs_that_stop_early first_k (Some "key") None [original] 0 1000 (Some (-1)))
    as (_ & Hsample & _).
  destruct (runs_that_stop_early first_k None None [original] 0 1000 None) as (Hkey & _).
  split.
  - by destruct (Hsample (-1) eq_refl eq_refl ltac:(lia)) as (_ & -> & _).
  - by destruct (Hkey _ eq_refl) as (-> & _).
Defined.

Lemma photo_loop_lines limit hashes n imgs s :
  exists rows,
    written (Photo.file (Photo.loop limit hashes n s imgs))
    = written (Photo.file s) ++ (Photo.Row <$> rows).
Proof.
  revert s. induction imgs as [|e imgs IH]; intros s; simpl.
  { exists []. by rewrite app_nil_r. }
  destruct (limit <=? Photo.daily_requests s).
  { exists []. by rewrite app_nil_r. }
  destruct (hashes !! (Photo.get_image_hash e).1) as [b|] eqn:Hh.
  - rewrite photo_body_skip by (rewrite Hh; eauto).
    destruct (IH (Photo.print ((Photo.get_image_hash e).2 ++ [SkippingByHash (e_path e)])
                    (Photo.with_pace (elapse (Z.of_N (e_lead_ms e)) (Photo.pace s)) s)))
      as [rows Hrows].
    exists rows. exact Hrows.
  - rewrite photo_body_new by done. cbv zeta.
    set (s2 := Photo.print _ (Photo.with_pace (throttle _).1 _)).
    assert (Ef : Photo.file s2 = Photo.file s) by reflexivity. clearbody s2.
    destruct (photo_classify_spec n (Photo.get_image_hash e).1 e s2)
      as (_ & _ & _ & Ewritten & _).
    destruct (IH (Photo.classify n (Photo.get_image_hash e).1 e s2)) as [rows Hrows].
    exists (photo_row_of (Photo.get_image_hash e).1 e s2 :: rows).
    by rewrite Hrows, Ewritten, Ef, <- app_assoc.
Qed.

Lemma tattoo_loop_lines paths entries s :
  exists rows,
    written (Tattoo.file (Tattoo.loop paths s entries))
    = written (Tattoo.file s) ++ (Tattoo.Row <$> rows).
Proof.
  unfold Tattoo.loop. revert s. induction entries as [|e entries IH]; intros s; simpl.
  { exists []. by rewrite app_nil_r. }
  destruct (tattoo_new paths e) eqn:Hnew.
  - rewrite tattoo_body_new by done. cbv zeta.
    set (s2 := Tattoo.print _ (Tattoo.with_pace (throttle _).1 _)).
    assert (Ef : Tattoo.file s2 = Tattoo.file s) by reflexivity. clearbody s2.
    destruct (tattoo_classify_spec e s2) as (_ & _ & Epending & Edurable).
    destruct (IH (Tattoo.classify e s2)) as [rows Hrows].
    exists (tattoo_row_of e s2 :: rows).
    rewrite Hrows. unfold written. by rewrite Epending, Edurable, Ef, <- !app_assoc.
  - rewrite tattoo_body_old by done.
    destruct (IH (if is_image e then Tattoo.print [SkippingByPath (e_path e)] s else s))
      as [rows Hrows].
    exists rows. rewrite Hrows. by destruct (is_image e).
Qed.

Lemma photo_rows_Row rows : photo_rows (Photo.Row <$> rows) = rows.
Proof.
  induction rows as [|r rows IH]; [done|].
  change (photo_rows (Photo.Row <$> r :: rows)) with (r :: photo_rows (Photo.Row <$> rows)).
  by rewrite IH.
Qed.

Lemma tattoo_rows_Row rows : tattoo_rows (Tattoo.Row <$> rows) = rows.
Proof.
  induction rows as [|r rows IH]; [done|].
  change (tattoo_rows (Tattoo.Row <$> r :: rows)) with (r :: tattoo_rows (Tattoo.Row <$> rows)).
  by rewrite IH.
Qed.

(** X4. What a run with a key leaves in its file: the header if and only if
    there was no ledger, in front, and after it nothing but the rows of the
    run; and all of it has been flushed when the run returns. *)
Theorem lines_of_a_run rs api_key ledger entries t0 daily_limit sample_size :
  setup_gemini api_key = Returned tt ->
  let photo := Photo.file
    (Photo.process_folder rs api_key ledger entries t0 daily_limit sample_size) in
  let tattoo := Tattoo.file (Tattoo.process_folder api_key ledger entries t0) in
  durable photo
  = (if ledger is None then [Photo.Header] else []) ++ (Photo.Row <$> photo_rows (durable photo))
  /\ pending photo = []
  /\ durable tattoo
     = (if ledger is None then [Tattoo.Header] else [])
       ++ (Tattoo.Row <$> tattoo_rows (durable tattoo))
  /\ pending tattoo = [].
Proof.
  intros Hkey. cbv zeta.
  assert (Hphoto : exists rows,
            durable (Photo.file
              (Photo.process_folder rs api_key ledger entries t0 daily_limit sample_size))
            = (if ledger is None then [Photo.Header] else []) ++ (Photo.Row <$> rows)
            /\ pending (Photo.file
                 (Photo.process_folder rs api_key ledger entries t0 daily_limit sample_size))
               = []).
  { destruct (photo_start_state rs api_key ledger entries t0 sample_size) as (_ & _ & _ & Hw).
    rewrite Hkey in Hw.
    unfold Photo.process_folder.
    destruct (Photo.start rs api_key ledger entries t0 sample_size) as [s [msg|[hashes imgs]]]
      eqn:Hstart; simpl in Hw.
    - exists []. simpl. rewrite app_nil_r. revert Hstart. unfold Photo.start. rewrite Hkey.
      destruct (Photo.get_processed_images ledger) as [[hashes paths] out].
      destruct (Photo.sample rs sample_size _) as [out' [msg'|imgs]]; [|done].
      intros [= <- _]. by destruct ledger.
    - destruct (photo_loop_lines daily_limit hashes (length imgs) imgs s) as [rows Hrows].
      exists rows. split; [|reflexivity].
      change (written (Photo.file (Photo.loop daily_limit hashes (length imgs) s imgs))
              = (if ledger is None then [Photo.Header] else []) ++ (Photo.Row <$> rows)).
      by rewrite Hrows, Hw. }
  assert (Htattoo : exists rows,
            durable (Tattoo.file (Tattoo.process_folder api_key ledger entries t0))
            = (if ledger is None then [Tattoo.Header] else []) ++ (Tattoo.Row <$> rows)
            /\ pending (Tattoo.file (Tattoo.process_folder api_key ledger entries t0)) = []).
  { unfold Tattoo.process_folder, Tattoo.start. rewrite Hkey.
    destruct (Tattoo.get_processed_images ledger) as [paths out].
    match goal with
    | |- context [Tattoo.loop paths ?s entries] => set (s0 := s)
    end.
    assert (Hw : written (Tattoo.file s0) = if ledger is None then [Tattoo.Header] else [])
      by (unfold s0; by destruct ledger).
    clearbody s0.
    destruct (tattoo_loop_lines paths entries s0) as [rows Hrows].
    exists rows. split; [|reflexivity].
    change (written (Tattoo.file (Tattoo.loop paths s0 entries))
            = (if ledger is None then [Tattoo.Header] else []) ++ (Tattoo.Row <$> rows)).
    by rewrite Hrows, Hw. }
  destruct Hphoto as (rows & Hd & Hp). destruct Htattoo as (rows' & Hd' & Hp').
  rewrite Hd, Hd', Hp, Hp', !photo_rows_app, !tattoo_rows_app, photo_rows_Row, tattoo_rows_Row.
  by destruct ledger.
Qed.

(** ** Answers in the format that the prompt asks for *)

Lemma has_char_app c a b : has_char c (a +:+ b) = has_char c a || has_char c b.
Proof. induction a as [|x a IH]; simpl; [done|]. by rewrite IH, orb_assoc. Qed.

Lemma split_one_line s :
  has_char PyStr.newline s = false -> PyStr.split PyStr.newline s = [s].
Proof.
  induction s as [|c s IH]; [done|].
  cbn [has_char PyStr.split]. intros Hno. apply orb_false_elim in Hno as [Hc Hs].
  rewrite Hc, IH; done.
Qed.

Lemma split_first_line a b :
  has_char PyStr.newline a = false ->
  PyStr.split PyStr.newline (a +:+ String PyStr.newline b) = a :: PyStr.split PyStr.newline b.
Proof.
  induction a as [|c a IH].
  - intros _. change ("" +:+ String PyStr.newline b) with (String PyStr.newline b).
    cbn [PyStr.split]. by rewrite Ascii.eqb_refl.
  - cbn [has_char]. intros Hno. apply orb_false_elim in Hno as [Hc Ha].
    rewrite append_cons. cbn [PyStr.split]. rewrite Hc, IH; done.
Qed.

Lemma tight_cons c s : tight s -> tight (String c s).
Proof.
  intros [Hfix Hne]. split; [|done].
  cbn [PyStr.rstrip]. rewrite Hfix. by destruct s.
Qed.

Lemma tight_app a s : tight s -> tight (a +:+ s).
Proof.
  intros Hs. induction a as [|c a IH]; [done|].
  rewrite append_cons. by apply tight_cons.
Qed.

Lemma lstrip_length s : (String.length (PyStr.lstrip s) <= String.length s)%nat.
Proof. induction s as [|c s IH]; simpl; [lia|]. destruct (PyStr.isspace c); simpl; lia. Qed.

Lemma rstrip_length s : (String.length (PyStr.rstrip s) <= String.length s)%nat.
Proof.
  induction s as [|c s IH]; [done|]. cbn [PyStr.rstrip].
  destruct (PyStr.rstrip s); [destruct (PyStr.isspace c)|]; simpl in *; lia.
Qed.

(** A string that [strip] leaves alone is left alone by [rstrip]. *)
Lemma strip_fixed_rstrip s : PyStr.strip s = s -> PyStr.rstrip s = s.
Proof.
  unfold PyStr.strip. intros Hfix.
  assert (Hl : PyStr.lstrip s = s).
  { destruct s as [|c s]; [done|]. cbn [PyStr.lstrip] in *.
    destruct (PyStr.isspace c); [|done].
    assert (H1 := rstrip_length (PyStr.lstrip s)). assert (H2 := lstrip_length s).
    rewrite Hfix in H1. simpl in H1. lia. }
  by rewrite Hl in Hfix.
Qed.

Lemma clean_value_spec label v :
  clean_value label v = true ->
  has_char PyStr.newline v = false /\ PyStr.strip v = v /\ PyStr.contains label v = false.
Proof.
  unfold clean_value. rewrite !andb_true_iff, !negb_true_iff, String.eqb_eq. tauto.
Qed.

(** A line made of a label and a clean value gives the value back. *)
Lemma field_of_line a label v :
  clean_value (String a label) v = true ->
  PyStr.strip (PyStr.replace (String a label +:+ v) (String a label) "") = v.
Proof.
  intros Hv. apply clean_value_spec in Hv as (_ & Hstrip & Hno).
  by rewrite replace_label, replace_absent.
Qed.

Lemma line_one_line label v :
  has_char PyStr.newline label = false -> has_char PyStr.newline v = false ->
  has_char PyStr.newline (label +:+ v) = false.
Proof. intros Hl Hv. by rewrite has_char_app, Hl, Hv. Qed.

(** A text that begins with a character that is not white space and ends
    with a tight string is left alone by [strip]. *)
Lemma strip_text c label x y :
  PyStr.isspace c = false -> tight y ->
  PyStr.strip ((String c label +:+ x) +:+ y) = (String c label +:+ x) +:+ y.
Proof.
  intros Hc Hy. destruct (tight_app (String c label +:+ x) y Hy) as [Hfix _].
  unfold PyStr.strip.
  change ((String c label +:+ x) +:+ y) with (String c ((label +:+ x) +:+ y)) in *.
  cbn [PyStr.lstrip]. by rewrite Hc.
Qed.

(** X5. An answer of the service that has exactly the five lines that the
    photo prompt asks for, each with its label and a clean value (the last
    value not empty), is parsed into these five values, and nothing is
    reported. *)
Theorem photo_answer_parsed e category wedding people location description :
  e_decode e = Returned tt ->
  e_reply e = Returned (PyStr.join PyStr.newline
                ["Category: " +:+ category; "Wedding: " +:+ wedding;
                 "People: " +:+ people; "Location: " +:+ location;
                 "Description: " +:+ description]) ->
  clean_value "Category: " category = true ->
  clean_value "Wedding: " wedding = true ->
  clean_value "People: " people = true ->
  clean_value "Location: " location = true ->
  clean_value "Description: " description = true ->
  description <> "" ->
  Photo.analyze_photo e = ((category, wedding, people, location, description), []).
Proof.
  intros Hdecode Hreply Hc Hw Hp Hl Hd Hne.
  unfold Photo.analyze_photo, encode_image. rewrite Hdecode, Hreply.
  cbn [PyStr.join mbind result_bind].
  destruct (clean_value_spec _ _ Hc) as (Nc & _ & _).
  destruct (clean_value_spec _ _ Hw) as (Nw & _ & _).
  destruct (clean_value_spec _ _ Hp) as (Np & _ & _).
  destruct (clean_value_spec _ _ Hl) as (Nl & _ & _).
  destruct (clean_value_spec _ _ Hd) as (Nd & Sd & _).
  assert (Htight : tight description) by (split; [by apply strip_fixed_rstrip | done]).
  rewrite (photo_parse_lines _ ("Category: " +:+ category) ("Wedding: " +:+ wedding)
             ("People: " +:+ people) ("Location: " +:+ location)
             ("Description: " +:+ description) []).
  - by rewrite !field_of_line.
  - rewrite strip_text; [|done|].
    + rewrite !split_first_line, split_one_line; try done; by apply line_one_line.
    + repeat (apply tight_cons; apply tight_app). done.
Qed.

Lemma photo_answer_parsed_witness :
  Photo.analyze_photo original
  = (("Travel", "N/A", "You", "Beach", "A walk on the beach"), []).
Proof.
  apply (photo_answer_parsed original "Travel" "N/A" "You" "Beach" "A walk on the beach");
    try reflexivity. discriminate.
Defined.

(** X6. The same for the tattoo client and the three lines of its prompt. *)
Theorem tattoo_answer_parsed e primary secondary description :
  e_decode e = Returned tt ->
  e_reply e = Returned (PyStr.join PyStr.newline
                ["Primary: " +:+ primary; "Secondary: " +:+ secondary;
                 "Description: " +:+ description]) ->
  clean_value "Primary: " primary = true ->
  clean_value "Secondary: " secondary = true ->
  clean_value "Description: " description = true ->
  description <> "" ->
  Tattoo.analyze_tattoo e = ((primary, secondary, description), []).
Proof.
  intros Hdecode Hreply Hp Hs Hd Hne.
  unfold Tattoo.analyze_tattoo, encode_image. rewrite Hdecode, Hreply.
  cbn [PyStr.join mbind result_bind].
  destruct (clean_value_spec _ _ Hp) as (Np & _ & _).
  destruct (clean_value_spec _ _ Hs) as (Ns & _ & _).
  destruct (clean_value_spec _ _ Hd) as (Nd & Sd & _).
  assert (Htight : tight description) by (split; [by apply strip_fixed_rstrip | done]).
  rewrite (tattoo_parse_lines _ ("Primary: " +:+ primary) ("Secondary: " +:+ secondary)
             ("Description: " +:+ description) []).
  - by rewrite !field_of_line.
  - rewrite strip_text; [|done|].
    + rewrite !split_first_line, split_one_line; try done; by apply line_one_line.
    + repeat (apply tight_cons; apply tight_app). done.
Qed.

Lemma tattoo_answer_parsed_witness :
  Tattoo.analyze_tattoo tattoo_original
  = (("Traditional", "Neo-traditional", "A swallow"), []).
Proof.
  apply (tattoo_answer_parsed tattoo_original "Traditional" "Neo-traditional" "A swallow");
    try reflexivity. discriminate.
Defined.

Lemma lines_of_a_run_witness :
  durable (Photo.file
    (Photo.process_folder first_k (Some "key") None [birthday_entry] 0 1000 None))
  = Photo.Header
    :: (Photo.Row <$> photo_rows (durable (Photo.file
          (Photo.process_folder first_k (Some "key") None [birthday_entry] 0 1000 None)))).
Proof.
  by destruct (lines_of_a_run first_k (Some "key") None [birthday_entry] 0 1000 None eq_refl)
    as (H & _).
Defined.

(** ** The limiter's variables along a run *)

Lemma photo_body_pace hashes n s e :
  Photo.pace (Photo.body hashes n s e)
  = if photo_fresh hashes e then turn e (Photo.pace s)
    else elapse (Z.of_N (e_lead_ms e)) (Photo.pace s).
Proof.
  unfold photo_fresh.
  destruct (hashes !! (Photo.get_image_hash e).1) as [b|] eqn:Hh.
  - rewrite bool_decide_eq_true_2 by eauto.
    by rewrite photo_body_skip by (rewrite Hh; eauto).
  - rewrite bool_decide_eq_false_2 by (by intros [? ?]).
    rewrite photo_body_new by done. cbv zeta.
    set (s2 := Photo.print _ (Photo.with_pace (throttle _).1 _)).
    by destruct (photo_classify_spec n (Photo.get_image_hash e).1 e s2) as (-> & _).
Qed.

Lemma tattoo_body_pace paths s e :
  Tattoo.pace (Tattoo.body paths s e)
  = if tattoo_new paths e then turn e (Tattoo.pace s) else Tattoo.pace s.
Proof.
  destruct (tattoo_new paths e) eqn:Hnew.
  - rewrite tattoo_body_new by done. cbv zeta.
    set (s2 := Tattoo.print _ (Tattoo.with_pace (throttle _).1 _)).
    by destruct (tattoo_classify_spec e s2) as (-> & _).
  - rewrite tattoo_body_old by done. by destruct (is_image e).
Qed.

Lemma paced_turn e p : paced p -> paced (turn e p).
Proof.
  intros Hp. unfold turn.
  destruct (paced_throttle (elapse (Z.of_N (e_lead_ms e)) p)) as (Ht & Hroom & Hopen & _).
  { apply paced_elapse; [lia | done]. }
  apply paced_elapse; [clock_lia|]. apply paced_classify; [lia | done..].
Qed.

(** A property of the limiter's variables that time and turns keep is kept
    by both loops and by whole runs. *)
Section Kept.

Variable kept : pacing -> Prop.
Hypothesis kept_elapse : forall d p, 0 <= d -> paced p -> kept p -> kept (elapse d p).
Hypothesis kept_turn : forall e p, paced p -> kept p -> kept (turn e p).

Lemma photo_loop_kept limit hashes n imgs s :
  paced (Photo.pace s) -> kept (Photo.pace s) ->
  paced (Photo.pace (Photo.loop limit hashes n s imgs))
  /\ kept (Photo.pace (Photo.loop limit hashes n s imgs)).
Proof.
  revert s. induction imgs as [|e imgs IH]; intros s Hp Hk; simpl; [done|].
  destruct (limit <=? Photo.daily_requests s); [done|].
  apply IH; rewrite photo_body_pace; destruct (photo_fresh hashes e);
    auto using paced_turn, paced_elapse with lia.
Qed.

Lemma tattoo_loop_kept paths entries s :
  paced (Tattoo.pace s) -> kept (Tattoo.pace s) ->
  paced (Tattoo.pace (Tattoo.loop paths s entries))
  /\ kept (Tattoo.pace (Tattoo.loop paths s entries)).
Proof.
  unfold Tattoo.loop. revert s.
  induction entries as [|e entries IH]; intros s Hp Hk; simpl; [done|].
  apply IH; rewrite tattoo_body_pace; destruct (tattoo_new paths e);
    auto using paced_turn.
Qed.

Lemma runs_kept rs api_key ledger entries t0 daily_limit sample_size :
  kept (start_pacing t0) ->
  kept (Photo.pace (Photo.process_folder rs api_key ledger entries t0 daily_limit sample_size))
  /\ kept (Tattoo.pace (Tattoo.process_folder api_key ledger entries t0)).
Proof.
  intros H0. split.
  - destruct (photo_start_state rs api_key ledger entries t0 sample_size) as (Hp & _).
    unfold Photo.process_folder.
    destruct (Photo.start rs api_key ledger entries t0 sample_size) as [s [msg|[hashes imgs]]];
      simpl in Hp.
    + simpl. by rewrite Hp.
    + simpl. apply photo_loop_kept; rewrite Hp; [apply paced_start | done].
  - unfold Tattoo.process_folder, Tattoo.start.
    destruct (setup_gemini api_key) as [msg|model]; [done|].
    destruct (Tattoo.get_processed_images ledger) as [paths out]. simpl.
    apply tattoo_loop_kept; destruct ledger; simpl; (apply paced_start || done).
Qed.

End Kept.

Lemma sorted_snoc {A : Type} (R : A -> A -> Prop) l y :
  StronglySorted R l -> Forall (fun x => R x y) l -> StronglySorted R (l ++ [y]).
Proof.
  induction 1 as [|x l Hsorted IH Hall]; intros Hy; simpl.
  - by repeat constructor.
  - apply Forall_cons in Hy as [Hxy Hy]. constructor; [by apply IH|].
    apply Forall_app. split; [done | by constructor].
Qed.

Lemma throttle_clock p : clock p <= clock (throttle p).1 /\ calls (throttle p).1 = calls p.
Proof. unfold throttle. repeat case_match; simpl; split; try done; clock_lia. Qed.

Lemma spaced_elapse d p : 0 <= d -> spaced p -> spaced (elapse d p).
Proof.
  intros Hd [Hs Hall]. split; [done|]. simpl.
  eapply Forall_impl; [exact Hall|]. simpl. intros c Hc. lia.
Qed.

Lemma spaced_turn e p : spaced p -> spaced (turn e p).
Proof.
  intros [Hs Hall]. unfold turn, spaced.
  destruct (throttle_clock (elapse (Z.of_N (e_lead_ms e)) p)) as [Hclock Hcalls].
  set (q := (throttle (elapse (Z.of_N (e_lead_ms e)) p)).1) in *. clearbody q.
  simpl in Hclock, Hcalls. simpl. rewrite Hcalls. split.
  - apply sorted_snoc; [done|].
    eapply Forall_impl; [exact Hall|]. unfold a_second_apart. simpl. intros c Hc. lia.
  - apply Forall_app. split.
    + eapply Forall_impl; [exact Hall|]. simpl. intros c Hc. clock_lia.
    + repeat constructor. simpl. lia.
Qed.

(** X7. In every run of either driver the classifications start in the
    order in which they were logged and any two of them at least a second
    apart: the pause after each image is never skipped. *)
Theorem a_second_between_calls rs api_key ledger entries t0 daily_limit sample_size :
  StronglySorted a_second_apart
    (calls (Photo.pace
       (Photo.process_folder rs api_key ledger entries t0 daily_limit sample_size)))
  /\ StronglySorted a_second_apart
       (calls (Tattoo.pace (Tattoo.process_folder api_key ledger entries t0))).
Proof.
  destruct (runs_kept spaced) with (rs := rs) (api_key := api_key) (ledger := ledger)
    (entries := entries) (t0 := t0) (daily_limit := daily_limit) (sample_size := sample_size)
    as [[Hphoto _] [Htattoo _]].
  - intros d p Hd _. by apply spaced_elapse.
  - intros e p _. apply spaced_turn.
  - split; constructor.
  - done.
Qed.

(** ** The waits of the limiter *)

Lemma throttle_wait p : paced p -> Forall sound_wait (throttle p).2.
Proof.
  intros [H1 H2 _ _ _ _ _ _]. unfold throttle.
  destruct (minute <=? clock p - minute_start p) eqn:Hreset; simpl.
  - constructor.
  - destruct (14 <=? requests_this_minute p); simpl; repeat constructor; clock_lia.
Qed.

Lemma photo_body_console hashes n s e :
  Photo.console (Photo.body hashes n s e)
  = Photo.console s ++ (Photo.get_image_hash e).2
    ++ (if photo_fresh hashes e
        then (throttle (elapse (Z.of_N (e_lead_ms e)) (Photo.pace s))).2
             ++ [Processing (Photo.total_processed s + 1) (Some n) (e_path e)]
             ++ (Photo.analyze_photo e).2
             ++ [Results (e_path e) (Photo.attribute_list (Photo.analyze_photo e).1)]
        else [SkippingByHash (e_path e)]).
Proof.
  unfold photo_fresh.
  destruct (hashes !! (Photo.get_image_hash e).1) as [b|] eqn:Hh.
  - rewrite bool_decide_eq_true_2 by eauto.
    by rewrite photo_body_skip by (rewrite Hh; eauto).
  - rewrite bool_decide_eq_false_2 by (by intros [? ?]).
    rewrite photo_body_new by done. cbv zeta.
    set (s2 := Photo.print _ (Photo.with_pace (throttle _).1 _)).
    destruct (photo_classify_spec n (Photo.get_image_hash e).1 e s2)
      as (_ & _ & _ & _ & _ & ->).
    unfold s2. simpl. by rewrite <- !app_assoc.
Qed.

Lemma tattoo_body_console paths s e :
  Tattoo.console (Tattoo.body paths s e)
  = Tattoo.console s
    ++ (if tattoo_new paths e
        then (throttle (elapse (Z.of_N (e_lead_ms e)) (Tattoo.pace s))).2
             ++ [Processing (Tattoo.total_processed s + 1) None (e_path e)]
             ++ (Tattoo.analyze_tattoo e).2
             ++ [Results (e_path e) (Tattoo.attribute_list (Tattoo.analyze_tattoo e).1)]
        else if is_image e then [SkippingByPath (e_path e)] else []).
Proof.
  destruct (tattoo_new paths e) eqn:Hnew.
  - rewrite tattoo_body_new by done. cbv zeta.
    unfold Tattoo.classify. destruct (Tattoo.analyze_tattoo e) as [a out]. simpl.
    by rewrite <- !app_assoc.
  - rewrite tattoo_body_old by done. destruct (is_image e); simpl; by rewrite ?app_nil_r.
Qed.

Lemma analyze_photo_quiet e : Forall sound_wait (Photo.analyze_photo e).2.
Proof.
  unfold Photo.analyze_photo, encode_image.
  destruct (e_decode e); simpl; [repeat constructor|].
  destruct (_ ≫= _); simpl; repeat constructor.
Qed.

Lemma analyze_tattoo_quiet e : Forall sound_wait (Tattoo.analyze_tattoo e).2.
Proof.
  unfold Tattoo.analyze_tattoo, encode_image.
  destruct (e_decode e); simpl; [repeat constructor|].
  destruct (_ ≫= _); simpl; repeat constructor.
Qed.

Lemma get_image_hash_quiet e : Forall sound_wait (Photo.get_image_hash e).2.
Proof. unfold Photo.get_image_hash. destruct (e_bytes e); repeat constructor. Qed.

Lemma photo_loop_waits limit hashes n imgs s :
  paced (Photo.pace s) -> Forall sound_wait (Photo.console s) ->
  Forall sound_wait (Photo.console (Photo.loop limit hashes n s imgs)).
Proof.
  revert s. induction imgs as [|e imgs IH]; intros s Hp Hc; simpl; [done|].
  destruct (limit <=? Photo.daily_requests s).
  { simpl. apply Forall_app. split; [done | repeat constructor]. }
  apply IH.
  - rewrite photo_body_pace. destruct (photo_fresh hashes e);
      auto using paced_turn, paced_elapse with lia.
  - rewrite photo_body_console. repeat (apply Forall_app; split); try done.
    + apply get_image_hash_quiet.
    + destruct (photo_fresh hashes e); repeat (apply Forall_app; split);
        repeat constructor.
      * apply throttle_wait, paced_elapse; [lia | done].
      * apply analyze_photo_quiet.
Qed.

Lemma tattoo_loop_waits paths entries s :
  paced (Tattoo.pace s) -> Forall sound_wait (Tattoo.console s) ->
  Forall sound_wait (Tattoo.console (Tattoo.loop paths s entries)).
Proof.
  unfold Tattoo.loop. revert s.
  induction entries as [|e entries IH]; intros s Hp Hc; simpl; [done|].
  apply IH.
  - rewrite tattoo_body_pace. destruct (tattoo_new paths e); auto using paced_turn.
  - rewrite tattoo_body_console. apply Forall_app. split; [done|].
    destruct (tattoo_new paths e); [|destruct (is_image e); repeat constructor].
    repeat (apply Forall_app; split); repeat constructor.
    + apply throttle_wait, paced_elapse; [lia | done].
    + apply analyze_tattoo_quiet.
Qed.

Lemma photo_reader_quiet ledger : Forall sound_wait (Photo.get_processed_images ledger).2.
Proof.
  unfold Photo.get_processed_images. destruct ledger as [r|]; [|constructor].
  destruct (_ ≫= _) as [msg|[h p]]; repeat constructor.
Qed.

Lemma tattoo_reader_quiet ledger : Forall sound_wait (Tattoo.get_processed_images ledger).2.
Proof.
  unfold Tattoo.get_processed_images. destruct ledger as [r|]; [|constructor].
  destruct (_ ≫= _) as [msg|p]; repeat constructor.
Qed.

Lemma sample_quiet rs sample_size imgs : Forall sound_wait (Photo.sample rs sample_size imgs).1.
Proof.
  unfold Photo.sample. destruct sample_size as [k|]; [|constructor].
  destruct (k <? _); repeat constructor.
Qed.

Lemma photo_start_quiet rs api_key ledger entries t0 sample_size :
  Forall sound_wait (Photo.console (Photo.start rs api_key ledger entries t0 sample_size).1).
Proof.
  unfold Photo.start. destruct (setup_gemini api_key); [repeat constructor|].
  assert (Hr := photo_reader_quiet ledger).
  destruct (Photo.get_processed_images ledger) as [[hashes paths] out]. simpl in Hr.
  assert (Hs := sample_quiet rs sample_size (Photo.scan paths entries)).
  destruct (Photo.sample rs sample_size _) as [out' r]. simpl in Hs.
  assert (Hc : Forall sound_wait
            ((((([] ++ [SettingUp]) ++ [SetupSuccessful] ++ out
                ++ [FoundProcessed (size hashes)])
               ++ [Scanning; FoundNew (length (Photo.scan paths entries))]) ++ out'))).
  { repeat (apply Forall_app; split); try done; repeat constructor. }
  destruct r; by destruct ledger.
Qed.

(** X8. Whenever a run of either driver prints that it waits for the rate
    limit, the wait is more than nothing and at most a minute: [time.sleep]
    is never given a negative time, which would raise and end the run. *)
Theorem waits_are_sound rs api_key ledger entries t0 daily_limit sample_size :
  Forall sound_wait
    (Photo.console (Photo.process_folder rs api_key ledger entries t0 daily_limit sample_size))
  /\ Forall sound_wait
       (Tattoo.console (Tattoo.process_folder api_key ledger entries t0)).
Proof.
  split.
  - unfold Photo.process_folder.
    destruct (photo_start_state rs api_key ledger entries t0 sample_size) as (Hp & _).
    assert (Hc := photo_start_quiet rs api_key ledger entries t0 sample_size).
    destruct (Photo.start rs api_key ledger entries t0 sample_size) as [s [msg|[hashes imgs]]];
      simpl in Hp, Hc; simpl.
    + apply Forall_app. split; [done | repeat constructor].
    + apply Forall_app. split; [|repeat constructor].
      apply photo_loop_waits; [rewrite Hp; apply paced_start | done].
  - unfold Tattoo.process_folder, Tattoo.start.
    destruct (setup_gemini api_key); [repeat constructor|].
    assert (Hr := tattoo_reader_quiet ledger).
    destruct (Tattoo.get_processed_images ledger) as [paths out]. simpl in Hr. simpl.
    apply Forall_app. split; [|repeat constructor].
    apply tattoo_loop_waits.
    + destruct ledger; apply paced_start.
    + assert (Hc : Forall sound_wait (([] ++ [SettingUp]) ++ [SetupSuccessful] ++ out
                                       ++ [FoundProcessed (size paths)])).
      { repeat (apply Forall_app; split); try done; repeat constructor. }
      by destruct ledger.
Qed.

(** ** Sampling *)

Lemma filter_submseteq {A} (f : A -> bool) (l k : list A) :
  l ⊆+ k -> List.filter f l ⊆+ List.filter f k.
Proof.
  induction 1 as [|x l k _ IH|x y l|x l k _ IH|l k m _ IH1 _ IH2]; simpl.
  - constructor.
  - destruct (f x); [by constructor | done].
  - destruct (f x), (f y); try done. constructor.
  - destruct (f x); [by constructor | done].
  - by etrans.
Qed.

Lemma filter_length_le {A} (f : A -> bool) (l : list A) :
  (length (List.filter f l) <= length l)%nat.
Proof. induction l as [|x l IH]; simpl; [lia|]. destruct (f x); simpl; lia. Qed.

(** The classifications of a photo run whose setup handed [imgs] to the loop. *)
Lemma photo_run_calls rs api_key ledger entries t0 daily_limit sample_size s hashes imgs :
  Photo.start rs api_key ledger entries t0 sample_size = (s, Returned (hashes, imgs)) ->
  snd <$> calls (Photo.pace
            (Photo.process_folder rs api_key ledger entries t0 daily_limit sample_size))
  = e_path <$> take (Z.to_nat daily_limit) (List.filter (photo_fresh hashes) imgs).
Proof.
  intros Hstart.
  destruct (photo_start_state rs api_key ledger entries t0 sample_size) as (Hp & _ & Hd & _).
  unfold Photo.process_folder. rewrite Hstart in *. simpl in Hp, Hd.
  destruct (photo_loop_rows daily_limit hashes (length imgs) imgs s) as (_ & H2 & _).
  simpl. rewrite H2, Hd, Hp, Z.sub_0_r. reflexivity.
Qed.

(** X9. A photo run that is asked for a sample of [k] images starts at most
    [k] classifications, all of them of candidates of the folder whose
    fingerprint is new, none more often than it is in the folder.  Asking for
    at least as many images as there are candidates is asking for no sample. *)
Theorem sampled_run rs api_key ledger entries t0 daily_limit k :
  setup_gemini api_key = Returned tt ->
  draws rs ->
  0 <= k ->
  let hashes := (Photo.get_processed_images ledger).1.1 in
  let paths := (Photo.get_processed_images ledger).1.2 in
  let run := Photo.process_folder rs api_key ledger entries t0 daily_limit (Some k) in
  Z.of_nat (length (calls (Photo.pace run))) <= k
  /\ (exists done,
        snd <$> calls (Photo.pace run) = e_path <$> done
        /\ done ⊆+ List.filter (photo_fresh hashes) (Photo.scan paths entries))
  /\ (Z.of_nat (length (Photo.scan paths entries)) <= k ->
      run = Photo.process_folder rs api_key ledger entries t0 daily_limit None).
Proof.
  intros Hkey Hrs Hk. cbv zeta.
  set (hashes := (Photo.get_processed_images ledger).1.1).
  set (paths := (Photo.get_processed_images ledger).1.2).
  set (imgs := if k <? Z.of_nat (length (Photo.scan paths entries))
               then rs (Photo.scan paths entries) (Z.to_nat k)
               else Photo.scan paths entries).
  assert (Hstart : (Photo.start rs api_key ledger entries t0 (Some k)).2
                   = Returned (hashes, imgs)).
  { unfold Photo.start, Photo.sample, imgs, hashes, paths. rewrite Hkey.
    destruct (Photo.get_processed_images ledger) as [[h p] out]. simpl.
    destruct (k <? _); [|done]. by replace (k <? 0) with false by lia. }
  assert (Himgs : Z.of_nat (length imgs) <= k /\ imgs ⊆+ Photo.scan paths entries).
  { unfold imgs. destruct (k <? _) eqn:Hlt; [|split; [lia | done]].
    destruct (Hrs (Photo.scan paths entries) (Z.to_nat k)) as [Hlen Hsub]; [lia|].
    split; [lia | done]. }
  destruct Himgs as [Hlen Hsub].
  destruct (Photo.start rs api_key ledger entries t0 (Some k)) as [s r] eqn:Hs.
  simpl in Hstart. subst r.
  assert (Hcalls := photo_run_calls rs api_key ledger entries t0 daily_limit (Some k) _ _ _ Hs).
  split; [|split].
  - rewrite <- (length_fmap snd), Hcalls, length_fmap, length_take.
    assert (H := filter_length_le (photo_fresh hashes) imgs). lia.
  - eexists. split; [exact Hcalls|].
    etrans; [apply submseteq_take|]. by apply filter_submseteq.
  - intros Hall. unfold Photo.process_folder, Photo.start, Photo.sample.
    fold paths. destruct (setup_gemini api_key); [done|].
    destruct (Photo.get_processed_images ledger) as [[h p] out]. simpl in paths. subst paths.
    by replace (k <? Z.of_nat (length (Photo.scan p entries))) with false by lia.
Qed.

Lemma sampled_run_witness :
  Z.of_nat (length (calls (Photo.pace
    (Photo.process_folder first_k (Some "key") recorded_ledger
       [renamed_copy; birthday_entry; birthday_entry; undecodable_entry] 0 1000 (Some 2)))))
  <= 2.
Proof.
  refine (proj1 (sampled_run first_k (Some "key") recorded_ledger
                   [renamed_copy; birthday_entry; birthday_entry; undecodable_entry]
                   0 1000 2 eq_refl _ _)); [|lia].
  intros population k Hk. unfold first_k. split.
  - by apply length_take_le.
  - apply submseteq_take.
Defined.

(** ** The analysis *)
















